(** * Project registry of the CRF document builder (App.tsx)

    A shallow embedding of the [App] component: the built-in template library
    [INITIAL_LIBRARY], the project list and its handlers (create, import,
    delete, open), the adapter [updateActiveProjectData] with its three
    setter wrappers, and the two effects that load the list from and save it
    to [localStorage].

    Conventions.
    - The component state is the pair ([projects], [activeProjectId]).  A
      handler is a closure of one render and returns the state its updates
      lead to.  Where a handler reads [projects] itself and also hands
      [setProjects] an update function, as [handleImportProject] does, the
      list of its render and the list the update applies to are two
      arguments: they are the same list only for a call made from the render
      that shows the current state.
    - [Date.now()] is an oracle: every call consumes the next reading of a
      clock supplied by the environment.  Nothing is assumed about the
      readings (two consecutive calls may or may not return the same
      millisecond).
    - [JSON.stringify] / [JSON.parse] are platform built-ins.  Module [JSON]
      models them on the values a project list is made of: strings (as UTF-8
      byte strings), integer numbers, booleans, null, arrays and objects.
    - [localStorage] is a finite map from keys to strings. *)

From Stdlib Require Import ZArith String Ascii List Lia.
From Stdlib Require Import Decimal DecimalFacts DecimalPos DecimalN DecimalZ.
From stdpp Require Import base option list strings gmap.

(* ===================================================================== *)
(** * 1. Run-time values and the JSON built-ins *)
(* ===================================================================== *)

Module JSON.

Local Open Scope char_scope.

(** The values [JSON.stringify] can serialise.  An object lists its
    properties in enumeration order; a JavaScript object never holds the
    same key twice (see [wf]).  Numbers are the integers: the only numbers
    the application itself produces are [Date.now()] time stamps. *)
Unset Elimination Schemes.
Inductive json : Type :=
| JNull
| JBool (b : bool)
| JNum (n : Z)
| JStr (s : string)
| JArr (l : list json)
| JObj (m : list (string * json)).
Set Elimination Schemes.

(** Induction principle giving the hypothesis for every element of an array
    and every property value of an object. *)
Fixpoint json_ind (P : json -> Prop)
    (HNull : P JNull) (HBool : forall b, P (JBool b)) (HNum : forall n, P (JNum n))
    (HStr : forall s, P (JStr s))
    (HArr : forall l, Forall P l -> P (JArr l))
    (HObj : forall m, Forall (fun kv => P kv.2) m -> P (JObj m))
    (j : json) {struct j} : P j :=
  match j with
  | JNull => HNull
  | JBool b => HBool b
  | JNum n => HNum n
  | JStr s => HStr s
  | JArr l =>
      HArr l ((fix go (l : list json) : Forall P l :=
                 match l with
                 | [] => List.Forall_nil P
                 | x :: l' =>
                     List.Forall_cons P x l'
                       (json_ind P HNull HBool HNum HStr HArr HObj x) (go l')
                 end) l)
  | JObj m =>
      HObj m ((fix go (m : list (string * json)) : Forall (fun kv => P kv.2) m :=
                 match m with
                 | [] => List.Forall_nil _
                 | kv :: m' =>
                     List.Forall_cons _ kv m'
                       (json_ind P HNull HBool HNum HStr HArr HObj kv.2) (go m')
                 end) m)
  end.

Definition dquote : ascii := "034".
Definition backslash : ascii := "\".

(** ** JSON.stringify *)

Definition hex_digit (n : N) : ascii :=
  if (n <? 10)%N then ascii_of_N (48 + n) else ascii_of_N (87 + n).

(** QuoteJSONString: the quote, the backslash and the control characters are
    escaped, every other byte is copied. *)
Definition escape_char (c : ascii) : list ascii :=
  if Ascii.eqb c dquote then [backslash; dquote]
  else if Ascii.eqb c backslash then [backslash; backslash]
  else if Ascii.eqb c "008" then [backslash; "b"]
  else if Ascii.eqb c "012" then [backslash; "f"]
  else if Ascii.eqb c "010" then [backslash; "n"]
  else if Ascii.eqb c "013" then [backslash; "r"]
  else if Ascii.eqb c "009" then [backslash; "t"]
  else if (N_of_ascii c <? 32)%N
       then [backslash; "u"; "0"; "0";
             hex_digit (N_of_ascii c / 16); hex_digit (N_of_ascii c mod 16)]
       else [c].

Fixpoint escape (s : list ascii) : list ascii :=
  match s with
  | [] => []
  | c :: s' => escape_char c ++ escape s'
  end.

Definition quote (s : string) : list ascii :=
  dquote :: escape (list_ascii_of_string s) ++ [dquote].

Fixpoint digits (u : uint) : list ascii :=
  match u with
  | Nil => []
  | D0 u => "0" :: digits u | D1 u => "1" :: digits u | D2 u => "2" :: digits u
  | D3 u => "3" :: digits u | D4 u => "4" :: digits u | D5 u => "5" :: digits u
  | D6 u => "6" :: digits u | D7 u => "7" :: digits u | D8 u => "8" :: digits u
  | D9 u => "9" :: digits u
  end.

(** Number::toString of an integer: its decimal digits, with a minus sign
    when negative. *)
Definition number_text (n : Z) : list ascii :=
  match Z.to_int n with
  | Pos u => digits u
  | Neg u => "-" :: digits u
  end.

(** The text of a value: no white space, properties in enumeration order. *)
Fixpoint print (j : json) : list ascii :=
  match j with
  | JNull => ["n"; "u"; "l"; "l"]
  | JBool true => ["t"; "r"; "u"; "e"]
  | JBool false => ["f"; "a"; "l"; "s"; "e"]
  | JNum n => number_text n
  | JStr s => quote s
  | JArr l =>
      "[" :: (fix elems (l : list json) : list ascii :=
                match l with
                | [] => []
                | x :: l' => print x ++ match l' with [] => [] | _ => "," :: elems l' end
                end) l ++ ["]"]
  | JObj m =>
      "{" :: (fix members (m : list (string * json)) : list ascii :=
                match m with
                | [] => []
                | (k, x) :: m' =>
                    quote k ++ ":" :: print x
                      ++ match m' with [] => [] | _ => "," :: members m' end
                end) m ++ ["}"]
  end.

Fixpoint print_elems (l : list json) : list ascii :=
  match l with
  | [] => []
  | x :: l' => print x ++ match l' with [] => [] | _ => "," :: print_elems l' end
  end.

Fixpoint print_members (m : list (string * json)) : list ascii :=
  match m with
  | [] => []
  | (k, x) :: m' =>
      quote k ++ ":" :: print x
        ++ match m' with [] => [] | _ => "," :: print_members m' end
  end.

Definition stringify (j : json) : string := string_of_list_ascii (print j).

(** ** JSON.parse *)

Definition is_ws (c : ascii) : bool :=
  Ascii.eqb c " " || Ascii.eqb c "009" || Ascii.eqb c "010" || Ascii.eqb c "013".

Fixpoint skip_ws (s : list ascii) : list ascii :=
  match s with
  | c :: s' => if is_ws c then skip_ws s' else s
  | [] => []
  end.

Definition hex_value (c : ascii) : option N :=
  let n := N_of_ascii c in
  if ((48 <=? n) && (n <=? 57))%N then Some (n - 48)%N
  else if ((97 <=? n) && (n <=? 102))%N then Some (n - 87)%N
  else if ((65 <=? n) && (n <=? 70))%N then Some (n - 55)%N
  else None.

Definition hex4 (a b c d : ascii) : option N :=
  x ← hex_value a; y ← hex_value b; z ← hex_value c; w ← hex_value d;
  Some (((x * 16 + y) * 16 + z) * 16 + w)%N.

(** The bytes of a [\uXXXX] escape.  Surrogate code units are outside the
    model (strings are UTF-8 here, UTF-16 in JavaScript). *)
Definition utf8_of_code_unit (u : N) : option (list ascii) :=
  if (u <? 128)%N then Some [ascii_of_N u]
  else if (u <? 2048)%N then
    Some [ascii_of_N (192 + u / 64); ascii_of_N (128 + u mod 64)]
  else if ((55296 <=? u) && (u <=? 57343))%N then None
  else Some [ascii_of_N (224 + u / 4096); ascii_of_N (128 + (u / 64) mod 64);
             ascii_of_N (128 + u mod 64)].

Definition unescape (c : ascii) : option ascii :=
  if Ascii.eqb c dquote then Some dquote
  else if Ascii.eqb c backslash then Some backslash
  else if Ascii.eqb c "/" then Some "/"
  else if Ascii.eqb c "b" then Some "008"
  else if Ascii.eqb c "f" then Some "012"
  else if Ascii.eqb c "n" then Some "010"
  else if Ascii.eqb c "r" then Some "013"
  else if Ascii.eqb c "t" then Some "009"
  else None.

(** The characters of a string literal after its opening quote, up to and
    including the closing quote. *)
Fixpoint parse_chars (s : list ascii) : option (list ascii * list ascii) :=
  match s with
  | [] => None
  | c :: s1 =>
      if Ascii.eqb c dquote then Some ([], s1)
      else if Ascii.eqb c backslash then
        match s1 with
        | [] => None
        | e :: s2 =>
            if Ascii.eqb e "u" then
              match s2 with
              | h1 :: h2 :: h3 :: h4 :: s3 =>
                  bs ← hex4 h1 h2 h3 h4 ≫= utf8_of_code_unit;
                  '(cs, r) ← parse_chars s3;
                  Some (bs ++ cs, r)
              | _ => None
              end
            else
              b ← unescape e;
              '(cs, r) ← parse_chars s2;
              Some (b :: cs, r)
        end
      else if (N_of_ascii c <? 32)%N then None
      else '(cs, r) ← parse_chars s1; Some (c :: cs, r)
  end.

Definition digit_of (c : ascii) : option (uint -> uint) :=
  if Ascii.eqb c "0" then Some D0 else if Ascii.eqb c "1" then Some D1
  else if Ascii.eqb c "2" then Some D2 else if Ascii.eqb c "3" then Some D3
  else if Ascii.eqb c "4" then Some D4 else if Ascii.eqb c "5" then Some D5
  else if Ascii.eqb c "6" then Some D6 else if Ascii.eqb c "7" then Some D7
  else if Ascii.eqb c "8" then Some D8 else if Ascii.eqb c "9" then Some D9
  else None.

Fixpoint scan_digits (s : list ascii) : uint * list ascii :=
  match s with
  | [] => (Nil, [])
  | c :: s' =>
      match digit_of c with
      | Some d => let '(u, r) := scan_digits s' in (d u, r)
      | None => (Nil, s)
      end
  end.

Definition leading_zero (u : uint) : bool :=
  match u with
  | D0 Nil => false
  | D0 _ => true
  | _ => false
  end.

Definition starts_fraction (s : list ascii) : bool :=
  match s with
  | c :: _ => Ascii.eqb c "." || Ascii.eqb c "e" || Ascii.eqb c "E"
  | [] => false
  end.

(** An integer literal.  A fraction or an exponent denotes a number outside
    the model and is answered with [None]. *)
Definition parse_number (s : list ascii) : option (Z * list ascii) :=
  let '(neg, s1) := match s with
                    | c :: s' => if Ascii.eqb c "-" then (true, s') else (false, s)
                    | [] => (false, s)
                    end in
  let '(u, r) := scan_digits s1 in
  match u with
  | Nil => None
  | _ => if leading_zero u || starts_fraction r then None
         else Some (Z.of_int (if neg : bool then Neg u else Pos u), r)
  end.

Definition eat (c : ascii) (s : list ascii) : option (list ascii) :=
  match s with
  | x :: r => if Ascii.eqb x c then Some r else None
  | [] => None
  end.

Fixpoint eat_all (w s : list ascii) : option (list ascii) :=
  match w with
  | [] => Some s
  | c :: w' => eat c s ≫= eat_all w'
  end.

(** Property assignment [o[k] = v]: a repeated key keeps its first position
    and takes the last value. *)
Fixpoint obj_set (o : list (string * json)) (k : string) (v : json)
  : list (string * json) :=
  match o with
  | [] => [(k, v)]
  | (k', v') :: o' =>
      if String.eqb k' k then (k', v) :: o' else (k', v') :: obj_set o' k v
  end.

Definition obj_of_members (m : list (string * json)) : list (string * json) :=
  fold_left (fun o kv => obj_set o kv.1 kv.2) m [].

(** Recursive descent; [fuel] bounds the nesting and the number of elements,
    and the length of the text is always enough (see [parse]). *)
Fixpoint parse_value (fuel : nat) (s : list ascii) {struct fuel}
  : option (json * list ascii) :=
  match fuel with
  | O => None
  | S fuel =>
      match skip_ws s with
      | [] => None
      | c :: s1 =>
          if Ascii.eqb c "n" then r ← eat_all ["u"; "l"; "l"] s1; Some (JNull, r)
          else if Ascii.eqb c "t" then r ← eat_all ["r"; "u"; "e"] s1; Some (JBool true, r)
          else if Ascii.eqb c "f" then
            r ← eat_all ["a"; "l"; "s"; "e"] s1; Some (JBool false, r)
          else if Ascii.eqb c dquote then
            '(cs, r) ← parse_chars s1; Some (JStr (string_of_list_ascii cs), r)
          else if Ascii.eqb c "[" then
            match eat "]" (skip_ws s1) with
            | Some r => Some (JArr [], r)
            | None => '(l, r) ← parse_elements fuel s1; Some (JArr l, r)
            end
          else if Ascii.eqb c "{" then
            match eat "}" (skip_ws s1) with
            | Some r => Some (JObj [], r)
            | None => '(m, r) ← parse_members fuel s1; Some (JObj (obj_of_members m), r)
            end
          else '(n, r) ← parse_number (c :: s1); Some (JNum n, r)
      end
  end
with parse_elements (fuel : nat) (s : list ascii) {struct fuel}
  : option (list json * list ascii) :=
  match fuel with
  | O => None
  | S fuel =>
      '(v, r) ← parse_value fuel s;
      match skip_ws r with
      | c :: r1 =>
          if Ascii.eqb c "," then '(l, r2) ← parse_elements fuel r1; Some (v :: l, r2)
          else if Ascii.eqb c "]" then Some ([v], r1)
          else None
      | [] => None
      end
  end
with parse_members (fuel : nat) (s : list ascii) {struct fuel}
  : option (list (string * json) * list ascii) :=
  match fuel with
  | O => None
  | S fuel =>
      s1 ← eat dquote (skip_ws s);
      '(k, r) ← parse_chars s1;
      r1 ← eat ":" (skip_ws r);
      '(v, r2) ← parse_value fuel r1;
      match skip_ws r2 with
      | c :: r3 =>
          if Ascii.eqb c "," then
            '(m, r4) ← parse_members fuel r3;
            Some ((string_of_list_ascii k, v) :: m, r4)
          else if Ascii.eqb c "}" then Some ([(string_of_list_ascii k, v)], r3)
          else None
      | [] => None
      end
  end.

(** [None] stands for the SyntaxError the built-in throws.

    The model is exact on the texts [stringify] writes for the values of
    [wf] below.  On other texts it covers less than the built-in: a number
    with a fraction or an exponent, and a string with an escaped surrogate
    pair, are answered with [None] where the built-in accepts them; an
    integer beyond 2^53 is kept exact where the built-in rounds it; and the
    properties of an object stay in the order of the text where the built-in
    moves integer-like keys to the front.  What is said about a stored text
    of unknown origin is therefore said for any implementation of the two
    built-ins (see [loadEffectWith], [mountWith]). *)
Definition parse (s : string) : option json :=
  let t := list_ascii_of_string s in
  '(v, r) ← parse_value (S (length t)) t;
  match skip_ws r with [] => Some v | _ => None end.

(** ** Representable values *)

Fixpoint distinct (l : list string) : bool :=
  match l with
  | [] => true
  | k :: l' => negb (existsb (String.eqb k) l') && distinct l'
  end.

(** Time stamps and counters are safe integers: below 2^53 in magnitude, a
    JavaScript number holds an integer exactly. *)
Definition safe_integer (n : Z) : bool := (Z.abs n <? 2 ^ 53)%Z.

(** A value as it exists at run time: no object holds a key twice and every
    number is a safe integer. *)
Fixpoint wf (j : json) : bool :=
  match j with
  | JNum n => safe_integer n
  | JArr l => forallb wf l
  | JObj m => distinct (map fst m) && forallb (fun kv => wf kv.2) m
  | _ => true
  end.

(** Where a printed value may end inside a text: at the end, or before a
    comma or a closing bracket. *)
Definition delim (s : list ascii) : bool :=
  match s with
  | [] => true
  | c :: _ => Ascii.eqb c "," || Ascii.eqb c "]" || Ascii.eqb c "}"
  end.

(** [v] is read back from its own text, whatever delimiter follows. *)
Definition parses (v : json) : Prop :=
  forall fuel rest, length (print v) < fuel -> delim rest = true ->
    parse_value fuel (print v ++ rest) = Some (v, rest).

(** ** Property access *)

Fixpoint get (k : string) (o : list (string * json)) : option json :=
  match o with
  | [] => None
  | (k', v) :: o' => if String.eqb k' k then Some v else get k o'
  end.

Definition as_string (j : json) : option string :=
  match j with JStr s => Some s | _ => None end.

Definition as_array (j : json) : option (list json) :=
  match j with JArr l => Some l | _ => None end.

Definition as_object (j : json) : option (list (string * json)) :=
  match j with JObj m => Some m | _ => None end.

(** [Array.isArray]. *)
Definition isArray (j : json) : bool :=
  match j with JArr _ => true | _ => false end.

End JSON.

(* ===================================================================== *)
(** * 2. The data model (./types) *)
(* ===================================================================== *)

Module Types.

Import JSON.

(** Modelled from the spec: the declarations of [./types] are not part of
    the sources.  The shape of a variable and of a form follows the
    maintenance guide at the head of App.tsx and the literal
    [INITIAL_LIBRARY]; [meta] and [data] follow the object built by
    [handleCreateProject].  Field names carry a prefix because two records
    of one name space cannot both have a field [id]. *)
Inductive VariableType : Type := TText | TNumber | TDate | TSelect | TRadio.

(** Modelled from the spec: the [type] of a form, 'standard' or 'grid'. *)
Inductive FormType : Type := FStandard | FGrid.

(** Modelled from the spec: a Variable, with [options] and [format]
    optional. *)
Record LibVariable : Type := {
  v_id : string;
  v_label : string;
  v_type : VariableType;
  v_options : option (list string);
  v_format : option string
}.

(** Modelled from the spec: a Form; [headerVariableIds] and [defaultRows]
    are written for grid forms only. *)
Record LibForm : Type := {
  f_id : string;
  f_name : string;
  f_type : FormType;
  f_headerVariableIds : option (list string);
  f_variableIds : list string;
  f_defaultRows : option (list string)
}.

(** Modelled from the spec: the Library Store, two ordered sequences. *)
Record LibraryData : Type := {
  variables : list LibVariable;
  forms : list LibForm
}.

(** Modelled from the spec: a Document Node and a Project Version are
    declared in [./types] only.  App.tsx never looks inside either, so both
    are kept as the run-time values they are. *)
Definition ProjectNode : Type := json.

Definition ProjectVersion : Type := json.

(** Modelled from the spec: [ProjectFile['meta']]; the two time stamps are
    [Date.now()] readings. *)
Record ProjectMeta : Type := {
  m_id : string;
  m_name : string;
  m_description : string;
  m_createdAt : Z;
  m_lastModified : Z
}.

(** Modelled from the spec: [ProjectFile['data']]. *)
Record ProjectData : Type := {
  project : list ProjectNode;
  library : LibraryData;
  versions : list ProjectVersion
}.

(** Modelled from the spec: the Project File, the element of the project
    list. *)
Record ProjectFile : Type := {
  meta : ProjectMeta;
  data : ProjectData
}.

(** ** Run-time representation

    The object a typed value is at run time: the properties in the order the
    literals of App.tsx write them, an absent optional field absent. *)

Definition VariableType_name (t : VariableType) : string :=
  match t with
  | TText => "text" | TNumber => "number" | TDate => "date"
  | TSelect => "select" | TRadio => "radio"
  end.

Definition FormType_name (t : FormType) : string :=
  match t with FStandard => "standard" | FGrid => "grid" end.

Definition strings_toJSON (l : list string) : json := JArr (map JStr l).

Definition optional {A : Type} (k : string) (enc : A -> json) (o : option A)
  : list (string * json) :=
  match o with
  | Some a => [(k, enc a)]
  | None => []
  end.

Definition LibVariable_toJSON (v : LibVariable) : json :=
  JObj ([("id", JStr (v_id v)); ("label", JStr (v_label v));
         ("type", JStr (VariableType_name (v_type v)))]
        ++ optional "options" strings_toJSON (v_options v)
        ++ optional "format" JStr (v_format v)).

Definition LibForm_toJSON (f : LibForm) : json :=
  JObj ([("id", JStr (f_id f)); ("name", JStr (f_name f));
         ("type", JStr (FormType_name (f_type f)))]
        ++ optional "headerVariableIds" strings_toJSON (f_headerVariableIds f)
        ++ [("variableIds", strings_toJSON (f_variableIds f))]
        ++ optional "defaultRows" strings_toJSON (f_defaultRows f)).

Definition LibraryData_toJSON (L : LibraryData) : json :=
  JObj [("variables", JArr (map LibVariable_toJSON (variables L)));
        ("forms", JArr (map LibForm_toJSON (forms L)))].

Definition ProjectMeta_toJSON (m : ProjectMeta) : json :=
  JObj [("id", JStr (m_id m)); ("name", JStr (m_name m));
        ("description", JStr (m_description m));
        ("createdAt", JNum (m_createdAt m));
        ("lastModified", JNum (m_lastModified m))].

Definition ProjectData_toJSON (d : ProjectData) : json :=
  JObj [("project", JArr (project d));
        ("library", LibraryData_toJSON (library d));
        ("versions", JArr (versions d))].

Definition ProjectFile_toJSON (f : ProjectFile) : json :=
  JObj [("meta", ProjectMeta_toJSON (meta f)); ("data", ProjectData_toJSON (data f))].

(** ** Reading a run-time value at a type

    [JSON.parse] returns [any]; using the result as a [LibraryData] reads
    these properties. *)

Definition VariableType_of_name (s : string) : option VariableType :=
  if String.eqb s "text" then Some TText
  else if String.eqb s "number" then Some TNumber
  else if String.eqb s "date" then Some TDate
  else if String.eqb s "select" then Some TSelect
  else if String.eqb s "radio" then Some TRadio
  else None.

Definition FormType_of_name (s : string) : option FormType :=
  if String.eqb s "standard" then Some FStandard
  else if String.eqb s "grid" then Some FGrid
  else None.

Definition strings_ofJSON (j : json) : option (list string) :=
  as_array j ≫= mapM as_string.

Definition optional_of {A : Type} (k : string) (dec : json -> option A)
    (o : list (string * json)) : option (option A) :=
  match get k o with
  | None => Some None
  | Some j => Some <$> dec j
  end.

Definition LibVariable_ofJSON (j : json) : option LibVariable :=
  o ← as_object j;
  i ← get "id" o ≫= as_string;
  l ← get "label" o ≫= as_string;
  t ← (get "type" o ≫= as_string) ≫= VariableType_of_name;
  os ← optional_of "options" strings_ofJSON o;
  fm ← optional_of "format" as_string o;
  Some {| v_id := i; v_label := l; v_type := t; v_options := os; v_format := fm |}.

Definition LibForm_ofJSON (j : json) : option LibForm :=
  o ← as_object j;
  i ← get "id" o ≫= as_string;
  n ← get "name" o ≫= as_string;
  t ← (get "type" o ≫= as_string) ≫= FormType_of_name;
  hs ← optional_of "headerVariableIds" strings_ofJSON o;
  vs ← get "variableIds" o ≫= strings_ofJSON;
  rs ← optional_of "defaultRows" strings_ofJSON o;
  Some {| f_id := i; f_name := n; f_type := t; f_headerVariableIds := hs;
          f_variableIds := vs; f_defaultRows := rs |}.

Definition LibraryData_ofJSON (j : json) : option LibraryData :=
  o ← as_object j;
  vs ← (get "variables" o ≫= as_array) ≫= mapM LibVariable_ofJSON;
  fs ← (get "forms" o ≫= as_array) ≫= mapM LibForm_ofJSON;
  Some {| variables := vs; forms := fs |}.

(** A file whose time stamps are safe integers and whose nodes and versions
    are well-formed run-time values. *)
Definition ProjectFile_wf (f : ProjectFile) : bool :=
  safe_integer (m_createdAt (meta f)) && safe_integer (m_lastModified (meta f))
  && forallb wf (project (data f)) && forallb wf (versions (data f)).

(** ** Library invariants

    Modelled from the spec: section 3 states them; App.tsx has no code that
    checks them. *)

Definition variable_ids (L : LibraryData) : list string := map v_id (variables L).

Definition form_ids (L : LibraryData) : list string := map f_id (forms L).

(** The variable ids a form names, columns and header alike. *)
Definition form_refs (f : LibForm) : list string :=
  f_variableIds f ++ default [] (f_headerVariableIds f).

Definition ids_unique (L : LibraryData) : Prop :=
  NoDup (variable_ids L) /\ NoDup (form_ids L).

Definition refs_resolve (L : LibraryData) : Prop :=
  Forall (fun f => Forall (fun r => r ∈ variable_ids L) (form_refs f)) (forms L).

Definition needs_options (t : VariableType) : bool :=
  match t with TSelect | TRadio => true | _ => false end.

Definition options_present (L : LibraryData) : Prop :=
  Forall (fun v => needs_options (v_type v) = true ->
                   exists o os, v_options v = Some (o :: os)) (variables L).

#[global] Instance refs_resolve_dec (L : LibraryData) : Decision (refs_resolve L).
Proof. unfold refs_resolve. apply _. Defined.

#[global] Instance ids_unique_dec (L : LibraryData) : Decision (ids_unique L).
Proof. unfold ids_unique. apply _. Defined.

End Types.

(* ===================================================================== *)
(** * 3. The environment: clock and storage *)
(* ===================================================================== *)

Import JSON Types.

(** The clock behind [Date.now()]: the [k]-th call since the start returns
    [readings k]; [elapsed] counts the calls made so far. *)
Record Clock : Type := {
  readings : nat -> Z;
  elapsed : nat
}.

(** Computations that read the clock and may throw ([None]). *)
Definition Eff (A : Type) : Type := Clock -> option (A * Clock).

#[global] Instance Eff_ret : MRet Eff := fun A a c => Some (a, c).

#[global] Instance Eff_bind : MBind Eff :=
  fun A B k m c =>
    match m c with
    | Some (a, c') => k a c'
    | None => None
    end.

(** A value if there is one, the exception otherwise. *)
Definition lift {A : Type} (o : option A) : Eff A :=
  fun c => match o with Some a => Some (a, c) | None => None end.

Module Date.

Definition now : Eff Z :=
  fun c => Some (readings c (elapsed c),
                 {| readings := readings c; elapsed := S (elapsed c) |}).

End Date.

Module localStorage.

Definition getItem (k : string) (ls : gmap string string) : option string := ls !! k.

Definition setItem (k v : string) (ls : gmap string string) : gmap string string :=
  <[k := v]> ls.

End localStorage.

(** A number inside a template literal: for an integer below 10^21 in
    magnitude, its decimal digits. *)
Definition Number_toString (n : Z) : string := string_of_list_ascii (number_text n).

(** JavaScript truthiness of a [string | null]. *)
Definition truthy (s : option string) : bool :=
  match s with
  | None => false
  | Some s => negb (String.eqb s "")
  end.

(* ===================================================================== *)
(** * 4. App.tsx *)
(* ===================================================================== *)

Definition INITIAL_LIBRARY : LibraryData := {|
  variables := [
    {| v_id := "DEM_01"; v_label := "受试者姓名缩写"; v_type := TText;
       v_options := None; v_format := Some "最多4位字母" |};
    {| v_id := "DEM_02"; v_label := "出生日期"; v_type := TDate;
       v_options := None; v_format := Some "YYYY-MM-DD" |};
    {| v_id := "VS_01"; v_label := "收缩压 (mmHg)"; v_type := TNumber;
       v_options := None; v_format := Some "3位整数" |};
    {| v_id := "VS_02"; v_label := "舒张压 (mmHg)"; v_type := TNumber;
       v_options := None; v_format := Some "3位整数" |};
    {| v_id := "VS_03"; v_label := "心率 (bpm)"; v_type := TNumber;
       v_options := None; v_format := Some "3位整数" |};
    {| v_id := "AE_01"; v_label := "不良事件名称"; v_type := TText;
       v_options := None; v_format := None |};
    {| v_id := "AE_02"; v_label := "严重程度"; v_type := TSelect;
       v_options := Some ["轻度"; "中度"; "重度"]; v_format := None |};
    {| v_id := "AE_03"; v_label := "与药物相关性"; v_type := TRadio;
       v_options := Some ["肯定有关"; "可能有关"; "可能无关"; "肯定无关"];
       v_format := None |};
    {| v_id := "PK_DONE"; v_label := "是否采血"; v_type := TRadio;
       v_options := Some ["是"; "否"]; v_format := None |};
    {| v_id := "PK_DATE"; v_label := "采血日期"; v_type := TDate;
       v_options := None; v_format := Some "YYYY-MM-DD" |};
    {| v_id := "PK_TIME"; v_label := "采血时间"; v_type := TText;
       v_options := None; v_format := Some "HH:MM (24h)" |};
    {| v_id := "PK_REMARK"; v_label := "备注"; v_type := TText;
       v_options := None; v_format := None |};
    {| v_id := "URINE_VOL"; v_label := "尿液体积 (mL)"; v_type := TNumber;
       v_options := None; v_format := None |};
    {| v_id := "URINE_START"; v_label := "起始时间"; v_type := TText;
       v_options := None; v_format := Some "HH:MM" |};
    {| v_id := "URINE_END"; v_label := "结束时间"; v_type := TText;
       v_options := None; v_format := Some "HH:MM" |}
  ];
  forms := [
    {| f_id := "DM"; f_name := "人口学资料"; f_type := FStandard;
       f_headerVariableIds := None;
       f_variableIds := ["DEM_01"; "DEM_02"];
       f_defaultRows := None |};
    {| f_id := "VS"; f_name := "生命体征"; f_type := FStandard;
       f_headerVariableIds := None;
       f_variableIds := ["VS_01"; "VS_02"; "VS_03"];
       f_defaultRows := None |};
    {| f_id := "AE"; f_name := "不良事件"; f_type := FStandard;
       f_headerVariableIds := None;
       f_variableIds := ["AE_01"; "AE_02"; "AE_03"];
       f_defaultRows := None |};
    {| f_id := "PK"; f_name := "PK 采血记录"; f_type := FGrid;
       f_headerVariableIds := Some ["PK_DATE"];
       f_variableIds := ["PK_TIME"; "PK_DONE"; "PK_REMARK"];
       f_defaultRows :=
         Some ["给药前0h"; "给药后0.5h"; "给药后1h"; "给药后2h"; "给药后4h"] |}
  ]
|}.

Definition PROJECTS_STORAGE_KEY : string := "docugen_pro_projects_v11".

(** The two [useState] cells. *)
Record AppState : Type := {
  projects : list ProjectFile;
  activeProjectId : option string
}.

(** [useState([])], [useState(null)]. *)
Definition initialState : AppState := {| projects := []; activeProjectId := None |}.

(** ** Effects at the storage boundary

    Both effects handle untyped run-time values: the load effect installs
    whatever array [JSON.parse] returned, without looking at its elements.
    They are stated for any implementation of the two built-ins. *)

Section Effects.

Variable JSON_stringify : json -> string.
Variable JSON_parse : string -> option json.

(** The project list after the load effect has run on mount; the list
    starts out empty and [setProjects(parsed)] is the only assignment. *)
Definition loadEffectWith (ls : gmap string string) : list json :=
  match localStorage.getItem PROJECTS_STORAGE_KEY ls with
  | Some saved =>
      if truthy (Some saved) then
        match JSON_parse saved with
        | Some parsed => if isArray parsed then default [] (as_array parsed) else []
        | None => []
        end
      else []
  | None => []
  end.

(** The save effect, run after every change of the list. *)
Definition persistEffectWith (ps : list json) (ls : gmap string string)
  : gmap string string :=
  if Nat.ltb 0 (length ps)
  then localStorage.setItem PROJECTS_STORAGE_KEY (JSON_stringify (JArr ps)) ls
  else ls.

End Effects.

Definition loadEffect : gmap string string -> list json := loadEffectWith JSON.parse.

Definition persistEffect : list json -> gmap string string -> gmap string string :=
  persistEffectWith JSON.stringify.

(** The typed project list as the run-time array the save effect sees. *)
Definition runtime (ps : list ProjectFile) : list json := map ProjectFile_toJSON ps.

(** ** Project management handlers *)

(** [JSON.parse(JSON.stringify(L))] used as a [LibraryData]. *)
Definition deepClone (L : LibraryData) : option LibraryData :=
  JSON.parse (JSON.stringify (LibraryData_toJSON L)) ≫= LibraryData_ofJSON.

Definition handleCreateProject (name description : string) (st : AppState)
  : Eff AppState :=
  t_id ← Date.now;
  t_created ← Date.now;
  t_modified ← Date.now;
  lib ← lift (deepClone INITIAL_LIBRARY);
  let newProject :=
    {| meta := {| m_id := "PROJ_" +:+ Number_toString t_id;
                  m_name := name;
                  m_description := description;
                  m_createdAt := t_created;
                  m_lastModified := t_modified |};
       data := {| project := []; library := lib; versions := [] |} |} in
  mret {| projects := newProject :: projects st;
          activeProjectId := Some (m_id (meta newProject)) |}.

(** The text of the one [alert] of the component. *)
Definition duplicate_id_alert : string := "项目 ID 已存在，请重试或重命名文件".

(** The handler is a closure of one render: the test of line 144 reads
    [projects] as that render received it, here [rendered], while the update
    function handed to [setProjects] (line 148) receives the list as it is
    when the update is applied, here [projects st].  The two lists are the
    same when the handler is called once, from the render that shows [st];
    they differ for a second call from the same render.  The result is the
    next state and the alert raised, if any. *)
Definition handleImportProject (rendered : list ProjectFile) (fileData : ProjectFile)
    (st : AppState) : AppState * option string :=
  if bool_decide (Exists (fun p => m_id (meta p) = m_id (meta fileData)) rendered)
  then (st, Some duplicate_id_alert)
  else ({| projects := fileData :: projects st;
           activeProjectId := Some (m_id (meta fileData)) |}, None).

Definition handleDeleteProject (id : string) (st : AppState) : AppState :=
  {| projects := filter (fun p => m_id (meta p) ≠ id) (projects st);
     activeProjectId :=
       if bool_decide (activeProjectId st = Some id) then None else activeProjectId st |}.

Definition handleOpenProject (id : string) (st : AppState) : AppState :=
  {| projects := projects st; activeProjectId := Some id |}.

Definition handleBackToDashboard (st : AppState) : AppState :=
  {| projects := projects st; activeProjectId := None |}.

(** ** Active project data updaters *)

Definition activeProject (st : AppState) : option ProjectFile :=
  a ← activeProjectId st;
  List.find (fun p => bool_decide (m_id (meta p) = a)) (projects st).

(** [{ ...p.meta, lastModified: t }] *)
Definition with_lastModified (t : Z) (m : ProjectMeta) : ProjectMeta :=
  {| m_id := m_id m; m_name := m_name m; m_description := m_description m;
     m_createdAt := m_createdAt m; m_lastModified := t |}.

(** The function mapped over the list by [updateActiveProjectData]. *)
Definition touchActive (updater : ProjectData -> ProjectData)
    (activeProjectId : option string) (p : ProjectFile) : Eff ProjectFile :=
  if bool_decide (Some (m_id (meta p)) ≠ activeProjectId) then mret p
  else
    let newData := updater (data p) in
    t ← Date.now;
    mret {| meta := with_lastModified t (meta p); data := newData |}.

Definition updateActiveProjectData (updater : ProjectData -> ProjectData)
    (st : AppState) : Eff AppState :=
  if negb (truthy (activeProjectId st)) then mret st
  else
    ps ← mapM (touchActive updater (activeProjectId st)) (projects st);
    mret {| projects := ps; activeProjectId := activeProjectId st |}.

(** How many of the projects [ps] carry the id [a]. *)
Definition matching (a : option string) (ps : list ProjectFile) : nat :=
  length (filter (fun p => Some (m_id (meta p)) = a) ps).

(** [React.SetStateAction]: a new value, or a function of the current one. *)
Inductive SetStateAction (A : Type) : Type :=
| Value (a : A)
| Updater (f : A -> A).

Arguments Value {A} a.
Arguments Updater {A} f.

(** [typeof valueOrFn === 'function' ? valueOrFn(cur) : valueOrFn] *)
Definition resolve {A : Type} (valueOrFn : SetStateAction A) (cur : A) : A :=
  match valueOrFn with
  | Updater f => f cur
  | Value a => a
  end.

Definition setProjectWrapper (valueOrFn : SetStateAction (list ProjectNode))
  : AppState -> Eff AppState :=
  updateActiveProjectData (fun data =>
    {| project := resolve valueOrFn (project data);
       library := library data; versions := versions data |}).

Definition setLibraryWrapper (valueOrFn : SetStateAction LibraryData)
  : AppState -> Eff AppState :=
  updateActiveProjectData (fun data =>
    {| project := project data;
       library := resolve valueOrFn (library data); versions := versions data |}).

Definition setVersionsWrapper (valueOrFn : SetStateAction (list ProjectVersion))
  : AppState -> Eff AppState :=
  updateActiveProjectData (fun data =>
    {| project := project data; library := library data;
       versions := resolve valueOrFn (versions data) |}).

(** An edit of the active project, through one of the three wrappers. *)
Inductive Edit : Type :=
| EditProject (a : SetStateAction (list ProjectNode))
| EditLibrary (a : SetStateAction LibraryData)
| EditVersions (a : SetStateAction (list ProjectVersion)).

Definition applyEdit (e : Edit) : AppState -> Eff AppState :=
  match e with
  | EditProject a => setProjectWrapper a
  | EditLibrary a => setLibraryWrapper a
  | EditVersions a => setVersionsWrapper a
  end.

(** ** Registry operations of the dashboard

    One operation per render: each handler belongs to the render that shows
    the state the operation before it left. *)

Inductive Action : Type :=
| ActCreate (name description : string)
| ActImport (fileData : ProjectFile)
| ActDelete (id : string).

Definition step (a : Action) (st : AppState) : Eff AppState :=
  match a with
  | ActCreate name description => handleCreateProject name description st
  | ActImport fileData => mret (handleImportProject (projects st) fileData st).1
  | ActDelete id => mret (handleDeleteProject id st)
  end.

Fixpoint run (acts : list Action) (st : AppState) : Eff AppState :=
  match acts with
  | [] => mret st
  | a :: acts' => st' ← step a st; run acts' st'
  end.

Definition project_ids (st : AppState) : list string :=
  map (fun p => m_id (meta p)) (projects st).

(** A clock that starts at [t0] and shows the same reading for ever. *)
Definition frozen (t0 : Z) : Clock := {| readings := fun _ => t0; elapsed := 0 |}.

(** A clock that starts at [t0] and advances one millisecond per reading. *)
Definition ticking (t0 : Z) : Clock :=
  {| readings := fun k => (t0 + Z.of_nat k)%Z; elapsed := 0 |}.

(** ** Auxiliary definitions for the statements below *)

(** What the function mapped by [updateActiveProjectData] makes of one
    project when the clock reads [t]. *)
Definition touched (updater : ProjectData -> ProjectData) (a : option string)
    (t : Z) (p : ProjectFile) : ProjectFile :=
  if decide (Some (m_id (meta p)) = a)
  then {| meta := with_lastModified t (meta p); data := updater (data p) |}
  else p.

(** ** Sample values *)

Definition sampleMeta (id : string) : ProjectMeta :=
  {| m_id := id; m_name := "PK study"; m_description := "phase I";
     m_createdAt := 1700000000000; m_lastModified := 1700000360000 |}.

Definition sampleNode : ProjectNode :=
  JObj [("id", JStr "node_1"); ("title", JStr "Visit 1"); ("formId", JStr "PK");
        ("children", JArr [])].

(** A file as another installation could have exported it. *)
Definition sampleFile : ProjectFile :=
  {| meta := sampleMeta "PROJ_1700000000000";
     data := {| project := [sampleNode]; library := INITIAL_LIBRARY; versions := [] |} |}.

(** A library whose first form names a variable the library does not have. *)
Definition danglingLibrary : LibraryData :=
  {| variables := [];
     forms := [ {| f_id := "PK2"; f_name := "PK2"; f_type := FStandard;
                   f_headerVariableIds := None;
                   f_variableIds := ["MISSING"];
                   f_defaultRows := None |} ] |}.

Definition danglingFile : ProjectFile :=
  {| meta := sampleMeta "PROJ_1";
     data := {| project := []; library := danglingLibrary; versions := [] |} |}.

(** A registry of two projects, the second of them open. *)
Definition sampleState : AppState :=
  {| projects := [sampleFile; danglingFile]; activeProjectId := Some "PROJ_1" |}.

(** ** What the component shows

    The two children of [App]'s JSX with the data props each receives; the
    callback props are the handlers above. *)
Inductive View : Type :=
| ProjectDashboard (projects : list ProjectFile)
| DocumentBuilder (library : LibraryData) (project : list ProjectNode)
    (versions : list ProjectVersion) (projectMeta : ProjectMeta).

(** [!activeProjectId || !activeProject ? <ProjectDashboard/> : <DocumentBuilder/>] *)
Definition render (st : AppState) : View :=
  match negb (truthy (activeProjectId st)), activeProject st with
  | false, Some p =>
      DocumentBuilder (library (data p)) (project (data p)) (versions (data p)) (meta p)
  | _, _ => ProjectDashboard (projects st)
  end.

(** ** The component over time *)

(** [x.k] for a run-time value [x], or [undefined] ([None]), and a key [k]
    that no prototype defines, as [meta] and [id]: reading a property of
    [undefined] or [null] throws a [TypeError] (the outer [None]); an object
    answers its own property, or [undefined]; an array, a string, a number
    and a boolean answer [undefined]. *)
Definition member (k : string) (x : option json) : option (option json) :=
  match x with
  | None => None
  | Some JNull => None
  | Some (JObj m) => Some (get k m)
  | Some _ => Some None
  end.

(** [x === activeProjectId], the id being a string or [null]. *)
Definition same_id (x : option json) (activeProjectId : option string) : bool :=
  match x, activeProjectId with
  | Some JNull, None => true
  | Some (JStr s), Some a => bool_decide (s = a)
  | _, _ => false
  end.

(** [projects.find(p => p.meta.id === activeProjectId)] (line 168) on the
    run-time list, whose elements need not be project files: the outer
    [None] is a render that throws, at the first element up to the match
    that is [null], has no [meta], or has [null] for its [meta]. *)
Fixpoint activeProject_any (activeProjectId : option string) (projects : list json)
  : option (option json) :=
  match projects with
  | [] => Some None
  | p :: projects' =>
      match member "meta" (Some p) with
      | None => None
      | Some m =>
          match member "id" m with
          | None => None
          | Some i =>
              if same_id i activeProjectId then Some (Some p)
              else activeProject_any activeProjectId projects'
          end
      end
  end.

Section Mount.

Variable JSON_stringify : json -> string.
Variable JSON_parse : string -> option json.

(** Mounting the component: the first render has the empty list, on which
    the save effect runs (and does nothing); the load effect installs its
    list, and the component is rendered with it, no project being active.
    If that render throws in line 168 the component is gone and its effects
    never run: the storage stays as it was.  Otherwise the save effect runs
    on the list installed.  The result is the list the load effect installed
    and the storage once everything has settled.  [ProjectDashboard], which
    is handed the list, is outside this file and is taken to render it. *)
Definition mountWith (ls : gmap string string) : list json * gmap string string :=
  let ls0 := persistEffectWith JSON_stringify [] ls in
  let ps := loadEffectWith JSON_parse ls in
  (ps, match activeProject_any None ps with
       | Some _ => persistEffectWith JSON_stringify ps ls0
       | None => ls0
       end).

End Mount.

Definition mount : gmap string string -> list json * gmap string string :=
  mountWith JSON.stringify JSON.parse.

(** Everything a user can trigger: the four callbacks of the dashboard, and
    from the builder an edit or the way back. *)
Inductive Event : Type :=
| EvCreate (name description : string)
| EvImport (fileData : ProjectFile)
| EvDelete (id : string)
| EvOpen (id : string)
| EvBack
| EvEdit (e : Edit).

(** The state after the handler of an event, called from the render that
    shows [st], and whether the handler called [setProjects] (a refused
    import, an edit without an active id, opening and going back do not). *)
Definition handle (ev : Event) (st : AppState) : Eff (AppState * bool) :=
  match ev with
  | EvCreate name description =>
      st' ← handleCreateProject name description st; mret (st', true)
  | EvImport fileData =>
      let r := handleImportProject (projects st) fileData st in
      mret (r.1, bool_decide (r.2 = None))
  | EvDelete id => mret (handleDeleteProject id st, true)
  | EvOpen id => mret (handleOpenProject id st, false)
  | EvBack => mret (handleBackToDashboard st, false)
  | EvEdit e => st' ← applyEdit e st; mret (st', truthy (activeProjectId st))
  end.

(** A session: the component is rendered again between two events, so that
    every event meets the handlers of the render showing the state the event
    before it left; after every event that set the project list the save
    effect runs on the new list. *)
Fixpoint session (evs : list Event) (st : AppState) (ls : gmap string string)
  : Eff (AppState * gmap string string) :=
  match evs with
  | [] => mret (st, ls)
  | ev :: evs' =>
      '(st', set) ← handle ev st;
      session evs' st' (if set : bool then persistEffect (runtime (projects st')) ls else ls)
  end.

(** The storage holds the serialisation of the project list, unless the
    list is empty. *)
Definition stored_ok (st : AppState) (ls : gmap string string) : Prop :=
  projects st <> [] ->
  ls !! PROJECTS_STORAGE_KEY = Some (JSON.stringify (JArr (runtime (projects st)))).

Definition is_create (ev : Event) : bool :=
  match ev with EvCreate _ _ => true | _ => false end.

(** The data updater a wrapper hands to [updateActiveProjectData]. *)
Definition edit_updater (e : Edit) (d : ProjectData) : ProjectData :=
  match e with
  | EditProject a =>
      {| project := resolve a (project d); library := library d; versions := versions d |}
  | EditLibrary a =>
      {| project := project d; library := resolve a (library d); versions := versions d |}
  | EditVersions a =>
      {| project := project d; library := library d; versions := resolve a (versions d) |}
  end.

(** Run from the same state and clock, [e1] then [e2] ends where [e2] then
    [e1] ends. *)
Definition commute_at (e1 e2 : Edit) (st : AppState) (c : Clock) : Prop :=
  exists st1 c1 st2 c2,
    applyEdit e1 st c = Some (st1, c1) /\ applyEdit e2 st c = Some (st2, c2)
    /\ applyEdit e2 st1 c1 = applyEdit e1 st2 c2.

(** Where a project of the list can come from: it is a file one of the
    actions imported, as imported, or the blank project one of the actions
    created. *)
Definition origin (acts : list Action) (p : ProjectFile) : Prop :=
  ActImport p ∈ acts
  \/ exists name description,
       ActCreate name description ∈ acts
       /\ m_name (meta p) = name /\ m_description (meta p) = description
       /\ data p = {| project := []; library := INITIAL_LIBRARY; versions := [] |}.

(** ** Objects and their identity

    A value of type [json] says what an object holds, not which object it
    is.  Where that matters (is the library of a new project the object
    [INITIAL_LIBRARY], or another object with the same contents?) the
    run-time values are references into a heap of objects. *)

Module Heap.

(** A primitive, or a reference to an array or object. *)
Inductive val : Type :=
| VNull
| VBool (b : bool)
| VNum (n : Z)
| VStr (s : string)
| VRef (l : nat).

Inductive cell : Type :=
| CArr (vs : list val)
| CObj (m : list (string * val)).

(** The objects created so far, each at the address of its position; a new
    object goes to the end, and no object is ever collected. *)
Abbreviation heap := (list cell).

Definition children (c : cell) : list val :=
  match c with
  | CArr vs => vs
  | CObj m => map snd m
  end.

(** [new Object] / [new Array], filled. *)
Definition alloc (c : cell) (h : heap) : val * heap := (VRef (length h), h ++ [c]).

(** The object graph of a literal, or of the value [JSON.parse] builds:
    every array and every object is a new object.  Addresses are given in
    the order in which the objects are completed, the parts of an object
    before the object. *)
Fixpoint build (j : json) (h : heap) {struct j} : val * heap :=
  match j with
  | JNull => (VNull, h)
  | JBool b => (VBool b, h)
  | JNum n => (VNum n, h)
  | JStr s => (VStr s, h)
  | JArr l =>
      let r := (fix elems (l : list json) (h : heap) {struct l} : list val * heap :=
                  match l with
                  | [] => ([], h)
                  | x :: l' =>
                      let r1 := build x h in
                      let r2 := elems l' r1.2 in
                      (r1.1 :: r2.1, r2.2)
                  end) l h in
      alloc (CArr r.1) r.2
  | JObj m =>
      let r := (fix members (m : list (string * json)) (h : heap) {struct m}
                  : list (string * val) * heap :=
                  match m with
                  | [] => ([], h)
                  | kv :: m' =>
                      let r1 := build kv.2 h in
                      let r2 := members m' r1.2 in
                      ((kv.1, r1.1) :: r2.1, r2.2)
                  end) m h in
      alloc (CObj r.1) r.2
  end.

Fixpoint build_elems (l : list json) (h : heap) : list val * heap :=
  match l with
  | [] => ([], h)
  | x :: l' =>
      let r1 := build x h in
      let r2 := build_elems l' r1.2 in
      (r1.1 :: r2.1, r2.2)
  end.

Fixpoint build_members (m : list (string * json)) (h : heap)
  : list (string * val) * heap :=
  match m with
  | [] => ([], h)
  | kv :: m' =>
      let r1 := build kv.2 h in
      let r2 := build_members m' r1.2 in
      ((kv.1, r1.1) :: r2.1, r2.2)
  end.

(** What [JSON.stringify] sees when it walks the graph from [v]: the value
    held, whichever objects hold it.  The walk follows at most [fuel]
    references in a row; in a heap of [n] objects a walk that follows more
    than [n] has met an object twice, and [JSON.stringify] throws on such a
    circular structure ([None]). *)
Fixpoint read (fuel : nat) (h : heap) (v : val) {struct fuel} : option json :=
  match v with
  | VNull => Some JNull
  | VBool b => Some (JBool b)
  | VNum n => Some (JNum n)
  | VStr s => Some (JStr s)
  | VRef l =>
      match fuel with
      | 0 => None
      | S fuel' =>
          match h !! l with
          | Some (CArr vs) => JArr <$> mapM (read fuel' h) vs
          | Some (CObj m) =>
              (fun js => JObj (zip (map fst m) js)) <$> mapM (read fuel' h) (map snd m)
          | None => None
          end
      end
  end.

(** [v.k] for an own property of an object. *)
Definition field (k : string) (h : heap) (v : val) : option val :=
  match v with
  | VRef l =>
      match h !! l with
      | Some (CObj m) => snd <$> List.find (fun kv => String.eqb kv.1 k) m
      | _ => None
      end
  | _ => None
  end.

(** The objects a value is made of: the object it refers to, and the
    objects the parts of that object are made of. *)
Inductive reaches (h : heap) : val -> nat -> Prop :=
| reaches_here (l : nat) (c : cell) :
    h !! l = Some c -> reaches h (VRef l) l
| reaches_part (l : nat) (c : cell) (v : val) (l' : nat) :
    h !! l = Some c -> In v (children c) -> reaches h v l' -> reaches h (VRef l) l'.

(** A value that refers, if to anything, to one of the first [n] objects. *)
Definition below (n : nat) (v : val) : bool :=
  match v with
  | VRef l => Nat.ltb l n
  | _ => true
  end.

(** Every reference held by an object of the heap is to an object of the
    heap. *)
Definition closed (h : heap) : bool :=
  forallb (fun c => forallb (below (length h)) (children c)) h.

(** A value that refers, if to anything, to an object with an address from
    [lo] up to, not including, [hi]. *)
Definition in_range (lo hi : nat) (v : val) : Prop :=
  match v with
  | VRef l => lo <= l < hi
  | _ => True
  end.

(** Objects that hold references into that range only. *)
Definition segment (lo hi : nat) (k : list cell) : Prop :=
  Forall (fun c => Forall (in_range lo hi) (children c)) k.

(** What [build] does, said of one value: on every heap it adds objects and
    changes none; the value returned and the objects added refer to objects
    added only; and the value returned reads as the value built, however the
    heap grows afterwards. *)
Definition built (j : json) : Prop :=
  forall h, exists k,
    (build j h).2 = h ++ k
    /\ in_range (length h) (length h + length k) (build j h).1
    /\ segment (length h) (length h + length k) k
    /\ forall ext fuel, length k <= fuel ->
         read fuel (h ++ k ++ ext) (build j h).1 = Some j.

Definition built_elems (l : list json) : Prop :=
  forall h, exists k,
    (build_elems l h).2 = h ++ k
    /\ length (build_elems l h).1 = length l
    /\ Forall (in_range (length h) (length h + length k)) (build_elems l h).1
    /\ segment (length h) (length h + length k) k
    /\ forall ext fuel, length k <= fuel ->
         mapM (read fuel (h ++ k ++ ext)) (build_elems l h).1 = Some l.

End Heap.

Import Heap.

(** The object graph of the module-level constant, as the literal of lines
    31-90 builds it when the module is loaded. *)
Definition INITIAL_LIBRARY_object : val * heap :=
  build (LibraryData_toJSON INITIAL_LIBRARY) [].

(** [JSON.stringify(v)] on the object graph. *)
Definition stringify_object (h : heap) (v : val) : option string :=
  JSON.stringify <$> read (length h) h v.

(** [JSON.parse(s)]: the objects of the result are new. *)
Definition parse_object (s : string) (h : heap) : option (val * heap) :=
  (fun j => build j h) <$> JSON.parse s.

(** [JSON.parse(JSON.stringify(v))] *)
Definition deepClone_object (v : val) (h : heap) : option (val * heap) :=
  stringify_object h v ≫= fun s => parse_object s h.

(** The object literal [newProject] of [handleCreateProject] (lines
    124-137), [init] being the object the constant [INITIAL_LIBRARY] refers
    to: the result is the reference to the new project and the heap with
    the objects the literal has created. *)
Definition newProject (name description : string) (init : val) (h : heap)
  : Eff (val * heap) :=
  t_id ← Date.now;
  t_created ← Date.now;
  t_modified ← Date.now;
  let r_meta := alloc (CObj [("id", VStr ("PROJ_" +:+ Number_toString t_id));
                             ("name", VStr name);
                             ("description", VStr description);
                             ("createdAt", VNum t_created);
                             ("lastModified", VNum t_modified)]) h in
  let r_project := alloc (CArr []) r_meta.2 in
  r_library ← lift (deepClone_object init r_project.2);
  let r_versions := alloc (CArr []) r_library.2 in
  let r_data := alloc (CObj [("project", r_project.1);
                             ("library", r_library.1);
                             ("versions", r_versions.1)]) r_versions.2 in
  mret (alloc (CObj [("meta", r_meta.1); ("data", r_data.1)]) r_data.2).

(* ===================================================================== *)
(** * 5. The JSON built-ins: reading back what was written *)
(* ===================================================================== *)

Section JSONFacts.

Local Open Scope char_scope.

Lemma print_arr l : print (JArr l) = "[" :: print_elems l ++ ["]"].
Proof. reflexivity. Qed.

Lemma print_obj m : print (JObj m) = "{" :: print_members m ++ ["}"].
Proof. reflexivity. Qed.

(** ** Strings *)

Lemma parse_chars_escape_char c rest :
  parse_chars (escape_char c ++ rest) = '(cs, r) ← parse_chars rest; Some (c :: cs, r).
Proof. destruct c as [[] [] [] [] [] [] [] []]; reflexivity. Qed.

Lemma parse_chars_escape s rest :
  parse_chars (escape s ++ dquote :: rest) = Some (s, rest).
Proof.
  induction s as [|c s IH]; [reflexivity|].
  simpl. rewrite <- app_assoc, parse_chars_escape_char, IH. reflexivity.
Qed.

(** ** Numbers *)

Lemma scan_digits_digits u rest :
  match rest with [] => True | c :: _ => digit_of c = None end ->
  scan_digits (digits u ++ rest) = (u, rest).
Proof.
  intros Hrest. induction u; simpl; try (rewrite IHu; reflexivity).
  destruct rest as [|c rest]; [reflexivity|]. simpl. by rewrite Hrest.
Qed.

Lemma delim_cases rest :
  delim rest = true ->
  rest = [] \/ exists c r, rest = c :: r /\ (c = "," \/ c = "]" \/ c = "}").
Proof.
  destruct rest as [|c rest]; [by left|]. simpl. intros H. right. exists c, rest.
  split; [reflexivity|].
  destruct (Ascii.eqb_spec c ",") as [->|]; [by left|].
  destruct (Ascii.eqb_spec c "]") as [->|]; [by right; left|].
  destruct (Ascii.eqb_spec c "}") as [->|]; [by right; right|]. discriminate.
Qed.

Lemma delim_digit rest :
  delim rest = true -> match rest with [] => True | c :: _ => digit_of c = None end.
Proof.
  intros H. destruct (delim_cases rest H) as [->|(c & r & -> & [->|[->| ->]])]; done.
Qed.

Lemma delim_fraction rest : delim rest = true -> starts_fraction rest = false.
Proof.
  intros H. destruct (delim_cases rest H) as [->|(c & r & -> & [->|[->| ->]])]; done.
Qed.

(** A normalised digit string is not empty and has no superfluous zero in
    front. *)
Lemma unorm_shape u : unorm u = u -> u <> Nil /\ leading_zero u = false.
Proof.
  intros H. split; [intros E; subst u; discriminate |].
  destruct u as [|u| | | | | | | | |]; try reflexivity.
  destruct (uint_eq_dec u Nil) as [->|Hu]; [reflexivity|].
  exfalso. unfold unorm in H. simpl in H.
  pose proof (nb_digits_nzhead u) as Hle.
  destruct (nzhead u) eqn:E; try (rewrite H in Hle; simpl in Hle; lia).
  congruence.
Qed.

Lemma to_int_shape n :
  match Z.to_int n with
  | Pos u | Neg u => u <> Nil /\ leading_zero u = false
  end.
Proof.
  pose proof (DecimalZ.to_of (Z.to_int n)) as H.
  rewrite DecimalZ.of_to in H.
  destruct (Z.to_int n) as [u|u] eqn:E; simpl in H.
  - apply unorm_shape. congruence.
  - destruct (nzhead u) eqn:Hz; try discriminate;
      apply unorm_shape; unfold unorm; rewrite Hz; congruence.
Qed.

Lemma parse_number_text n rest :
  delim rest = true ->
  parse_number (number_text n ++ rest) = Some (n, rest).
Proof.
  intros Hd. unfold number_text.
  pose proof (to_int_shape n) as Hs. pose proof (DecimalZ.of_to n) as Hn.
  destruct (Z.to_int n) as [u|u]; destruct Hs as [Hnil Hlz].
  - unfold parse_number.
    assert (Hneg : match digits u ++ rest with
                   | c :: s' =>
                       if Ascii.eqb c "-" then (true, s') else (false, digits u ++ rest)
                   | [] => (false, digits u ++ rest)
                   end = (false, digits u ++ rest)).
    { destruct u; try reflexivity. done. }
    rewrite Hneg, (scan_digits_digits _ _ (delim_digit _ Hd)).
    rewrite Hlz, (delim_fraction _ Hd).
    destruct u; [done|..]; cbv [orb]; rewrite Hn; reflexivity.
  - unfold parse_number. cbn [app Ascii.eqb Bool.eqb].
    rewrite (scan_digits_digits _ _ (delim_digit _ Hd)).
    rewrite Hlz, (delim_fraction _ Hd).
    destruct u; [done|..]; cbv [orb]; rewrite Hn; reflexivity.
Qed.

Lemma digits_head u :
  u <> Nil -> exists c t, digits u = c :: t /\ is_Some (digit_of c).
Proof. destruct u; [done|..]; intros _; simpl; eauto. Qed.

Lemma number_text_head n :
  exists c t, number_text n = c :: t /\ (is_Some (digit_of c) \/ c = "-").
Proof.
  unfold number_text. pose proof (to_int_shape n) as Hs.
  destruct (Z.to_int n) as [u|u]; destruct Hs as [Hnil _].
  - destruct (digits_head u Hnil) as (c & t & -> & Hc). eauto.
  - eauto.
Qed.

(** ** Unfolding the parser by one unit of fuel *)

Lemma parse_value_eq fuel s :
  parse_value (S fuel) s =
  match skip_ws s with
  | [] => None
  | c :: s1 =>
      if Ascii.eqb c "n" then r ← eat_all ["u"; "l"; "l"] s1; Some (JNull, r)
      else if Ascii.eqb c "t" then r ← eat_all ["r"; "u"; "e"] s1; Some (JBool true, r)
      else if Ascii.eqb c "f" then
        r ← eat_all ["a"; "l"; "s"; "e"] s1; Some (JBool false, r)
      else if Ascii.eqb c dquote then
        '(cs, r) ← parse_chars s1; Some (JStr (string_of_list_ascii cs), r)
      else if Ascii.eqb c "[" then
        match eat "]" (skip_ws s1) with
        | Some r => Some (JArr [], r)
        | None => '(l, r) ← parse_elements fuel s1; Some (JArr l, r)
        end
      else if Ascii.eqb c "{" then
        match eat "}" (skip_ws s1) with
        | Some r => Some (JObj [], r)
        | None => '(m, r) ← parse_members fuel s1; Some (JObj (obj_of_members m), r)
        end
      else '(n, r) ← parse_number (c :: s1); Some (JNum n, r)
  end.
Proof. reflexivity. Qed.

Lemma parse_elements_eq fuel s :
  parse_elements (S fuel) s =
  '(v, r) ← parse_value fuel s;
  match skip_ws r with
  | c :: r1 =>
      if Ascii.eqb c "," then '(l, r2) ← parse_elements fuel r1; Some (v :: l, r2)
      else if Ascii.eqb c "]" then Some ([v], r1)
      else None
  | [] => None
  end.
Proof. reflexivity. Qed.

Lemma parse_members_eq fuel s :
  parse_members (S fuel) s =
  s1 ← eat dquote (skip_ws s);
  '(k, r) ← parse_chars s1;
  r1 ← eat ":" (skip_ws r);
  '(v, r2) ← parse_value fuel r1;
  match skip_ws r2 with
  | c :: r3 =>
      if Ascii.eqb c "," then
        '(m, r4) ← parse_members fuel r3; Some ((string_of_list_ascii k, v) :: m, r4)
      else if Ascii.eqb c "}" then Some ([(string_of_list_ascii k, v)], r3)
      else None
  | [] => None
  end.
Proof. reflexivity. Qed.

Lemma parse_value_number fuel c s1 :
  is_Some (digit_of c) \/ c = "-" ->
  parse_value (S fuel) (c :: s1) = '(n, r) ← parse_number (c :: s1); Some (JNum n, r).
Proof.
  intros [[d Hd]| ->]; [|reflexivity].
  revert Hd. unfold digit_of.
  repeat match goal with
         | |- context [Ascii.eqb c ?x] =>
             destruct (Ascii.eqb_spec c x) as [->|]; [intros _; reflexivity|]
         end.
  discriminate.
Qed.

(** ** First characters *)

(** The first character of a printed value is never white space and never a
    closing bracket. *)
Lemma print_head v :
  exists c t, print v = c :: t /\ is_ws c = false /\ Ascii.eqb c "]" = false.
Proof.
  destruct v as [|[]|n|s|l|m]; try (do 2 eexists; split; [reflexivity|done]).
  destruct (number_text_head n) as (c & t & E & Hc). exists c, t. split; [exact E|].
  destruct Hc as [[d Hd]| ->]; [|done].
  revert Hd. unfold digit_of.
  repeat match goal with
         | |- context [Ascii.eqb c ?x] => destruct (Ascii.eqb_spec c x) as [->|]; [done|]
         end.
  discriminate.
Qed.

Lemma skip_ws_cons c s : is_ws c = false -> skip_ws (c :: s) = c :: s.
Proof. intros H. simpl. by rewrite H. Qed.

Lemma skip_ws_print v rest : skip_ws (print v ++ rest) = print v ++ rest.
Proof.
  destruct (print_head v) as (c & t & -> & Hc & _). simpl. by rewrite Hc.
Qed.

Lemma eat_bracket_print v rest : eat "]" (skip_ws (print v ++ rest)) = None.
Proof.
  rewrite skip_ws_print.
  destruct (print_head v) as (c & t & -> & _ & Hc). simpl. by rewrite Hc.
Qed.

(** ** Objects without a repeated key *)

Lemma distinct_NoDup l : distinct l = true -> NoDup l.
Proof.
  induction l as [|k l IH]; simpl; [constructor|].
  intros [Hk Hl]%andb_prop. constructor; [|auto].
  intros Hin. apply negb_true_iff in Hk.
  assert (existsb (String.eqb k) l = true) as E; [|congruence].
  apply existsb_exists. exists k. split; [by apply list_elem_of_In|apply String.eqb_refl].
Qed.

Lemma obj_set_fresh o k v :
  k ∉ map fst o -> obj_set o k v = o ++ [(k, v)].
Proof.
  induction o as [|[k' v'] o IH]; [reflexivity|]. simpl. intros Hk.
  destruct (String.eqb_spec k' k) as [->|_].
  - exfalso. apply Hk. left.
  - rewrite IH; [reflexivity|]. intros H. apply Hk. by right.
Qed.

Lemma fold_obj_set acc m :
  NoDup (map fst (acc ++ m)) ->
  fold_left (fun o kv => obj_set o kv.1 kv.2) m acc = acc ++ m.
Proof.
  revert acc. induction m as [|[k v] m IH]; intros acc Hnd; simpl.
  - by rewrite app_nil_r.
  - rewrite obj_set_fresh.
    + rewrite IH; rewrite <- app_assoc; [reflexivity|exact Hnd].
    + rewrite map_app in Hnd. simpl in Hnd.
      apply NoDup_app in Hnd as (_ & Hdisj & _).
      intros Hin. apply (Hdisj _ Hin). left.
Qed.

Lemma obj_of_members_NoDup m : NoDup (map fst m) -> obj_of_members m = m.
Proof. intros H. apply (fold_obj_set [] m H). Qed.

Lemma wf_arr l : wf (JArr l) = true -> Forall (fun x => wf x = true) l.
Proof.
  simpl. induction l as [|x l IH]; simpl; [constructor|].
  intros [Hx Hl]%andb_prop. constructor; auto.
Qed.

Lemma wf_obj m :
  wf (JObj m) = true -> NoDup (map fst m) /\ Forall (fun kv => wf kv.2 = true) m.
Proof.
  simpl. intros [Hd Hall]%andb_prop. split; [by apply distinct_NoDup|].
  clear Hd. induction m as [|x l IH]; simpl in *; [constructor|].
  apply andb_prop in Hall as [Hx Hl]. constructor; auto.
Qed.

(** ** Arrays, objects, values *)

Lemma parse_elements_print l :
  l <> [] -> Forall parses l ->
  forall fuel rest, length (print_elems l) + 1 < fuel ->
    parse_elements fuel (print_elems l ++ "]" :: rest) = Some (l, rest).
Proof.
  intros Hne Hall. induction Hall as [|x l Hx Hl IH]; [done|].
  intros [|fuel] rest Hlen; [lia|]. rewrite parse_elements_eq.
  destruct l as [|y l'].
  - simpl in *. rewrite app_nil_r in *.
    rewrite Hx; [|lia|done]. reflexivity.
  - change (print_elems (x :: y :: l')) with (print x ++ "," :: print_elems (y :: l')) in *.
    rewrite length_app in Hlen. cbn [length] in Hlen.
    rewrite <- app_assoc. cbn [app]. rewrite Hx; [|lia|done].
    cbn -[parse_elements print_elems]. rewrite IH; [reflexivity|done|lia].
Qed.

Lemma parse_members_print m :
  m <> [] -> Forall (fun kv => parses kv.2) m ->
  forall fuel rest, length (print_members m) + 1 < fuel ->
    parse_members fuel (print_members m ++ "}" :: rest) = Some (m, rest).
Proof.
  intros Hne Hall. induction Hall as [|[k x] m Hx Hm IH]; [done|].
  intros [|fuel] rest Hlen; [lia|]. rewrite parse_members_eq.
  assert (Hk : forall tl,
             quote k ++ tl = dquote :: escape (list_ascii_of_string k) ++ dquote :: tl).
  { intros tl. unfold quote. cbn [app]. by rewrite <- app_assoc. }
  destruct m as [|y m'].
  - cbn [print_members] in *. rewrite app_nil_r in *.
    rewrite Hk in *. cbn [app length] in *. rewrite !length_app in Hlen.
    cbn [length] in Hlen.
    rewrite <- !app_assoc. cbn [app].
    cbn -[parse_chars parse_value]. rewrite parse_chars_escape.
    cbn -[parse_chars parse_value]. rewrite Hx; [|simpl; lia|done].
    cbn. by rewrite string_of_list_ascii_of_string.
  - change (print_members ((k, x) :: y :: m'))
      with (quote k ++ ":" :: print x ++ "," :: print_members (y :: m')) in *.
    rewrite Hk in *. cbn [app length] in *. rewrite !length_app in Hlen.
    cbn [length] in Hlen. rewrite !length_app in Hlen. cbn [length] in Hlen.
    rewrite <- !app_assoc. cbn [app]. rewrite <- !app_assoc. cbn [app].
    cbn -[parse_chars parse_value parse_members print_members].
    rewrite parse_chars_escape.
    cbn -[parse_chars parse_value parse_members print_members].
    rewrite Hx; [|simpl; lia|done].
    cbn -[parse_chars parse_value parse_members print_members].
    rewrite IH; [|done|lia]. cbn. by rewrite string_of_list_ascii_of_string.
Qed.

Lemma parse_value_print v : wf v = true -> parses v.
Proof.
  induction v as [|b|n|s|l IH|m IH] using json_ind; intros Hwf [|fuel] rest Hlen Hd;
    try (simpl in Hlen; lia).
  - reflexivity.
  - by destruct b.
  - destruct (number_text_head n) as (c & t & E & Hc).
    change (print (JNum n)) with (number_text n).
    pose proof (parse_number_text n rest Hd) as Hn.
    rewrite E in *. cbn [app] in *.
    by rewrite parse_value_number, Hn.
  - rewrite parse_value_eq. cbn [print quote app]. rewrite <- app_assoc. cbn [app].
    cbn -[parse_chars]. rewrite parse_chars_escape. cbn.
    by rewrite string_of_list_ascii_of_string.
  - apply wf_arr in Hwf. rewrite print_arr in *. rewrite parse_value_eq.
    cbn [app length] in *. rewrite length_app in Hlen. cbn [length] in Hlen.
    rewrite <- app_assoc. cbn [app].
    destruct l as [|x l]; [reflexivity|].
    rewrite skip_ws_cons by reflexivity.
    cbn -[parse_elements print_elems eat skip_ws].
    assert (Hhd : eat "]" (skip_ws (print_elems (x :: l) ++ "]" :: rest)) = None).
    { cbn [print_elems]. rewrite <- app_assoc. apply eat_bracket_print. }
    rewrite Hhd, parse_elements_print; [reflexivity|done| |lia].
    apply Forall_forall. intros y Hy.
    rewrite Forall_forall in IH, Hwf. auto.
  - apply wf_obj in Hwf as [Hnd Hwf]. rewrite print_obj in *. rewrite parse_value_eq.
    cbn [app length] in *. rewrite length_app in Hlen. cbn [length] in Hlen.
    rewrite <- app_assoc. cbn [app].
    destruct m as [|[k x] m]; [reflexivity|].
    rewrite skip_ws_cons by reflexivity.
    cbn -[parse_members print_members eat skip_ws].
    assert (Hhd : eat "}" (skip_ws (print_members ((k, x) :: m) ++ "}" :: rest)) = None).
    { reflexivity. }
    rewrite Hhd, parse_members_print; [|done| |lia].
    + cbn -[obj_of_members]. by rewrite obj_of_members_NoDup.
    + apply Forall_forall. intros y Hy.
      rewrite Forall_forall in IH, Hwf. auto.
Qed.

(** [JSON.parse(JSON.stringify(v))] is [v], for every well-formed value. *)
Lemma parse_stringify v : wf v = true -> JSON.parse (JSON.stringify v) = Some v.
Proof.
  intros Hwf. unfold JSON.parse, JSON.stringify.
  rewrite list_ascii_of_string_of_list_ascii.
  pose proof (parse_value_print v Hwf (S (length (print v))) []
                (Nat.lt_succ_diag_r _) eq_refl) as H.
  rewrite app_nil_r in H. rewrite H. reflexivity.
Qed.

End JSONFacts.

(* ===================================================================== *)
(** * 6. The data model at run time *)
(* ===================================================================== *)

Section TypesFacts.

Lemma forallb_map_true {A B : Type} (p : B -> bool) (g : A -> B) (l : list A) :
  (forall x, p (g x) = true) -> forallb p (map g l) = true.
Proof. intros H. induction l as [|x l IH]; simpl; [done|]. by rewrite H, IH. Qed.

Lemma mapM_map_Some {A B : Type} (dec : B -> option A) (enc : A -> B) (l : list A) :
  (forall x, dec (enc x) = Some x) -> mapM dec (map enc l) = Some l.
Proof. intros H. induction l as [|x l IH]; simpl; [done|]. by rewrite H, IH. Qed.

(** ** Every typed value is a well-formed run-time value *)

Lemma wf_strings l : wf (strings_toJSON l) = true.
Proof. simpl. by apply forallb_map_true. Qed.

Lemma wf_variable v : wf (LibVariable_toJSON v) = true.
Proof.
  destruct v as [i l t [os|] [fm|]]; simpl;
    rewrite ?(forallb_map_true wf JStr) by done; reflexivity.
Qed.

Lemma wf_form f : wf (LibForm_toJSON f) = true.
Proof.
  destruct f as [i n t [hs|] vs [rs|]]; simpl;
    rewrite ?(forallb_map_true wf JStr) by done; reflexivity.
Qed.

Lemma wf_library L : wf (LibraryData_toJSON L) = true.
Proof.
  unfold LibraryData_toJSON. cbn [wf map fst forallb snd].
  rewrite !forallb_map_true; [reflexivity|apply wf_form|apply wf_variable].
Qed.

Lemma wf_project_file f : ProjectFile_wf f = true -> wf (ProjectFile_toJSON f) = true.
Proof.
  unfold ProjectFile_wf. intros [[[Hc Hm]%andb_prop Hp]%andb_prop Hv]%andb_prop.
  unfold ProjectFile_toJSON, ProjectMeta_toJSON, ProjectData_toJSON.
  cbn -[LibraryData_toJSON safe_integer]. cbn -[LibraryData_toJSON safe_integer] in Hp, Hv.
  by rewrite Hc, Hm, Hp, Hv, wf_library.
Qed.

Lemma wf_runtime ps :
  Forall (fun p => ProjectFile_wf p = true) ps -> wf (JArr (runtime ps)) = true.
Proof.
  intros H. cbn [wf]. unfold runtime. induction H as [|p ps Hp _ IH]; [done|].
  cbn [map forallb]. by rewrite wf_project_file, IH.
Qed.

(** ** Reading back a library *)

Lemma strings_of_to l : strings_ofJSON (strings_toJSON l) = Some l.
Proof. unfold strings_ofJSON. simpl. by apply mapM_map_Some. Qed.

Lemma LibVariable_of_to v : LibVariable_ofJSON (LibVariable_toJSON v) = Some v.
Proof.
  destruct v as [i l t [os|] [fm|]]; cbn -[strings_toJSON strings_ofJSON];
    rewrite ?strings_of_to; by destruct t.
Qed.

Lemma LibForm_of_to f : LibForm_ofJSON (LibForm_toJSON f) = Some f.
Proof.
  destruct f as [i n t [hs|] vs [rs|]]; cbn -[strings_toJSON strings_ofJSON];
    destruct t; cbn -[strings_toJSON strings_ofJSON];
    rewrite ?strings_of_to; cbn -[strings_toJSON strings_ofJSON];
    rewrite ?strings_of_to; reflexivity.
Qed.

Lemma LibraryData_of_to L : LibraryData_ofJSON (LibraryData_toJSON L) = Some L.
Proof.
  destruct L as [vs fs]. unfold LibraryData_ofJSON, LibraryData_toJSON.
  cbn -[mapM]. rewrite (mapM_map_Some _ _ vs LibVariable_of_to). cbn -[mapM].
  by rewrite (mapM_map_Some _ _ fs LibForm_of_to).
Qed.

(** The deep copy through JSON returns a library equal to the one copied. *)
Lemma deepClone_id L : deepClone L = Some L.
Proof.
  unfold deepClone. rewrite parse_stringify by apply wf_library.
  apply LibraryData_of_to.
Qed.

(** Two files with the same run-time representation are the same file. *)
Lemma ProjectFile_toJSON_inj f g : ProjectFile_toJSON g = ProjectFile_toJSON f -> g = f.
Proof.
  destruct f as [[fi fn fd fc fm] [fp fl fv]], g as [[gi gn gd gc gm] [gp gl gv]].
  unfold ProjectFile_toJSON, ProjectMeta_toJSON, ProjectData_toJSON. cbn [meta data
    m_id m_name m_description m_createdAt m_lastModified project library versions].
  remember (LibraryData_toJSON fl) as jf eqn:Ef.
  remember (LibraryData_toJSON gl) as jg eqn:Eg.
  intros H. injection H as -> -> -> -> -> -> HL ->.
  subst jf jg. apply (f_equal LibraryData_ofJSON) in HL.
  rewrite !LibraryData_of_to in HL. by injection HL as ->.
Qed.

End TypesFacts.

(* ===================================================================== *)
(** * 6b. Objects: what a copy shares *)
(* ===================================================================== *)

Section HeapFacts.

Lemma build_arr l h :
  build (JArr l) h = alloc (CArr (build_elems l h).1) (build_elems l h).2.
Proof. reflexivity. Qed.

Lemma build_obj m h :
  build (JObj m) h = alloc (CObj (build_members m h).1) (build_members m h).2.
Proof. reflexivity. Qed.

Lemma build_members_elems m h :
  build_members m h
  = (zip (map fst m) (build_elems (map snd m) h).1, (build_elems (map snd m) h).2).
Proof.
  revert h. induction m as [|[k x] m IH]; intros h; [reflexivity|].
  cbn [build_members build_elems map fst snd]. rewrite IH. reflexivity.
Qed.

Lemma in_range_mono lo hi lo' hi' v :
  lo' <= lo -> hi <= hi' -> in_range lo hi v -> in_range lo' hi' v.
Proof. destruct v; cbn; try done. lia. Qed.

Lemma segment_mono lo hi lo' hi' k :
  lo' <= lo -> hi <= hi' -> segment lo hi k -> segment lo' hi' k.
Proof.
  intros Hlo Hhi Hk. unfold segment in *.
  eapply Forall_impl; [exact Hk|]. intros c Hc.
  eapply Forall_impl; [exact Hc|]. intros v. by apply in_range_mono.
Qed.

Lemma lookup_app_plus {A : Type} (l1 l2 : list A) (n : nat) :
  (l1 ++ l2) !! (length l1 + n) = l2 !! n.
Proof. rewrite lookup_app_r by lia. f_equal. lia. Qed.

Lemma lookup_app_here {A : Type} (l1 : list A) (x : A) (l2 : list A) :
  (l1 ++ [x] ++ l2) !! length l1 = Some x.
Proof. by apply list_lookup_middle. Qed.

Lemma mapM_option_cons {A B : Type} (f : A -> option B) (x : A) (l : list A) :
  mapM f (x :: l) = match f x with
                    | Some y => match mapM f l with
                                | Some k => Some (y :: k)
                                | None => None
                                end
                    | None => None
                    end.
Proof. cbn. destruct (f x); [|reflexivity]. cbn. by destruct (mapM f l). Qed.

Lemma mapM_option_ext {A B : Type} (f g : A -> option B) (l : list A) :
  Forall (fun x => f x = g x) l -> mapM f l = mapM g l.
Proof.
  induction 1 as [|x l Hx _ IH]; [reflexivity|].
  by rewrite !mapM_option_cons, Hx, IH.
Qed.

Lemma read_ref fuel h l :
  read (S fuel) h (VRef l)
  = match h !! l with
    | Some (CArr vs) => JArr <$> mapM (read fuel h) vs
    | Some (CObj m) =>
        (fun js => JObj (zip (map fst m) js)) <$> mapM (read fuel h) (map snd m)
    | None => None
    end.
Proof. reflexivity. Qed.

(** ** What [build] builds *)

Lemma build_elems_built l : Forall built l -> built_elems l.
Proof.
  induction 1 as [|x l Hx _ IH]; intros h.
  - exists []. rewrite app_nil_r. cbn. repeat split; try done; constructor.
  - cbn [build_elems fst snd].
    destruct (Hx h) as (k1 & E1 & R1 & S1 & Rd1). rewrite E1.
    destruct (IH (h ++ k1)) as (k2 & E2 & L2 & R2 & S2 & Rd2). rewrite E2.
    rewrite length_app in R2, S2.
    exists (k1 ++ k2). rewrite length_app. split; [by rewrite app_assoc|].
    split; [cbn; by rewrite L2|]. split; [|split].
    + constructor.
      * eapply in_range_mono; [| |exact R1]; lia.
      * eapply Forall_impl; [exact R2|]. intros v. apply in_range_mono; lia.
    + apply Forall_app. split.
      * eapply segment_mono; [| |exact S1]; lia.
      * eapply segment_mono; [| |exact S2]; lia.
    + intros ext fuel Hf. rewrite mapM_option_cons.
      rewrite <- (app_assoc k1 k2 ext), (Rd1 (k2 ++ ext) fuel) by lia.
      rewrite (app_assoc h k1 (k2 ++ ext)), (Rd2 ext fuel) by lia. reflexivity.
Qed.

Lemma build_built j : built j.
Proof.
  induction j as [| | | |l IH|m IH] using json_ind;
    try (intros h; exists []; rewrite app_nil_r; cbn;
         repeat split; try done; [constructor|by intros ext [|fuel] _]).
  - intros h. rewrite build_arr.
    destruct (build_elems_built l IH h) as (k & E & L & R & Sg & Rd).
    rewrite E. cbn [alloc fst snd].
    exists (k ++ [CArr (build_elems l h).1]). rewrite !length_app. cbn [length].
    split; [by rewrite app_assoc|]. split; [cbn; lia|]. split.
    + apply Forall_app. split.
      * eapply segment_mono; [| |exact Sg]; lia.
      * constructor; [|constructor]. cbn [children].
        eapply Forall_impl; [exact R|]. intros v. apply in_range_mono; lia.
    + intros ext [|fuel] Hf; [lia|]. rewrite read_ref.
      rewrite <- (app_assoc k _ ext), lookup_app_plus.
      rewrite lookup_app_here. rewrite (Rd _ fuel) by lia. reflexivity.
  - intros h. rewrite build_obj, build_members_elems. cbn [fst snd].
    assert (IH' : Forall built (map snd m)) by (by apply Forall_fmap).
    destruct (build_elems_built (map snd m) IH' h) as (k & E & L & R & Sg & Rd).
    rewrite E. cbn [alloc fst snd]. rewrite length_map in L.
    set (vs := (build_elems (map snd m) h).1) in *.
    assert (Hsnd : map snd (zip (map fst m) vs) = vs).
    { apply snd_zip. rewrite length_map. lia. }
    assert (Hfst : map fst (zip (map fst m) vs) = map fst m).
    { apply fst_zip. rewrite length_map. lia. }
    exists (k ++ [CObj (zip (map fst m) vs)]). rewrite !length_app. cbn [length].
    split; [by rewrite app_assoc|]. split; [cbn; lia|]. split.
    + apply Forall_app. split.
      * eapply segment_mono; [| |exact Sg]; lia.
      * constructor; [|constructor]. cbn [children]. rewrite Hsnd.
        eapply Forall_impl; [exact R|]. intros v. apply in_range_mono; lia.
    + intros ext [|fuel] Hf; [lia|]. rewrite read_ref.
      rewrite <- (app_assoc k _ ext), lookup_app_plus.
      rewrite lookup_app_here, Hsnd, Hfst. rewrite (Rd _ fuel) by lia.
      cbn. by rewrite zip_fst_snd.
Qed.

(** ** Reading is stable *)

Lemma closed_lookup h l c v :
  closed h = true -> h !! l = Some c -> In v (children c) -> below (length h) v = true.
Proof.
  unfold closed. rewrite forallb_forall. intros Hcl Hl Hv.
  assert (Hc : In c h) by (apply list_elem_of_In; by eapply list_elem_of_lookup_2).
  specialize (Hcl c Hc). rewrite forallb_forall in Hcl. by apply Hcl.
Qed.

Lemma below_lt n l : below n (VRef l) = true -> l < n.
Proof. cbn. by intros ?%Nat.ltb_lt. Qed.

(** More fuel never changes what a walk has read. *)
Lemma read_mono fuel h v j :
  read fuel h v = Some j -> forall fuel', fuel <= fuel' -> read fuel' h v = Some j.
Proof.
  revert v j. induction fuel as [|fuel IH]; intros v j Hr fuel' Hle.
  - destruct v; try (by destruct fuel'); discriminate Hr.
  - destruct v as [| | | |l]; try (by destruct fuel').
    destruct fuel' as [|fuel']; [lia|]. rewrite read_ref in *.
    assert (Hm : forall vs js, mapM (read fuel h) vs = Some js
                               -> mapM (read fuel' h) vs = Some js).
    { intros vs js. rewrite !mapM_Some. intros H2.
      eapply Forall2_impl; [exact H2|]. intros x y Hx. apply (IH _ _ Hx). lia. }
    destruct (h !! l) as [[vs|m]|]; [| |done].
    + destruct (mapM (read fuel h) vs) as [js|] eqn:E; [|done].
      by rewrite (Hm _ _ E).
    + destruct (mapM (read fuel h) (map snd m)) as [js|] eqn:E; [|done].
      by rewrite (Hm _ _ E).
Qed.

(** Objects added to a closed heap, or changed beyond it, are not seen from
    the objects of that heap. *)
Lemma read_ext fuel h ext v :
  closed h = true -> below (length h) v = true ->
  read fuel (h ++ ext) v = read fuel h v.
Proof.
  intros Hcl. revert v. induction fuel as [|fuel IH]; intros v Hv.
  - by destruct v.
  - destruct v as [| | | |l]; try reflexivity.
    apply below_lt in Hv. rewrite !read_ref, (lookup_app_l h ext l Hv).
    destruct (h !! l) as [c|] eqn:Hl; [|done].
    assert (Hm : forall vs, (forall v, In v vs -> In v (children c)) ->
                            mapM (read fuel (h ++ ext)) vs = mapM (read fuel h) vs).
    { intros vs Hvs. apply mapM_option_ext, List.Forall_forall. intros v Hin.
      apply IH. eapply closed_lookup; [exact Hcl|exact Hl|by apply Hvs]. }
    destruct c as [vs|m]; by rewrite Hm.
Qed.

(** ** Reachability *)

Lemma reaches_closed h ext v l :
  closed h = true -> below (length h) v = true -> reaches (h ++ ext) v l -> l < length h.
Proof.
  intros Hcl Hv Hr. induction Hr as [l c Hl|l c v l' Hl Hin _ IH].
  - by apply below_lt.
  - apply IH. apply below_lt in Hv. rewrite (lookup_app_l h ext l Hv) in Hl.
    by eapply closed_lookup.
Qed.

Lemma reaches_segment h k ext v l :
  segment (length h) (length h + length k) k ->
  in_range (length h) (length h + length k) v ->
  reaches (h ++ k ++ ext) v l -> length h <= l < length h + length k.
Proof.
  intros Hseg Hv Hr. induction Hr as [l c Hl|l c v l' Hl Hin _ IH].
  - exact Hv.
  - apply IH. cbn in Hv.
    replace l with (length h + (l - length h)) in Hl by lia.
    rewrite lookup_app_plus, lookup_app_l in Hl by lia.
    unfold segment in Hseg. rewrite List.Forall_forall in Hseg.
    assert (Hc : In c k) by (apply list_elem_of_In; by eapply list_elem_of_lookup_2).
    specialize (Hseg c Hc). rewrite List.Forall_forall in Hseg. by apply Hseg.
Qed.

End HeapFacts.

(* ===================================================================== *)
(** * 7. The registry *)
(* ===================================================================== *)

Section AppFacts.

(** ** The clock monad, one step at a time *)

Lemma Eff_ret_run {A : Type} (a : A) (c : Clock) : (mret a : Eff A) c = Some (a, c).
Proof. reflexivity. Qed.

Lemma Eff_bind_run {A B : Type} (m : Eff A) (k : A -> Eff B) (c : Clock) :
  (m ≫= k) c = match m c with Some (a, c') => k a c' | None => None end.
Proof. reflexivity. Qed.

Lemma mapM_nil {A B : Type} (f : A -> Eff B) : mapM f [] = mret [].
Proof. reflexivity. Qed.

Lemma mapM_cons {A B : Type} (f : A -> Eff B) (x : A) (l : list A) :
  mapM f (x :: l) = y ← f x; k ← mapM f l; mret (y :: k).
Proof. reflexivity. Qed.

Lemma matching_cons_eq a q ps :
  Some (m_id (meta q)) = a -> matching a (q :: ps) = S (matching a ps).
Proof. intros H. unfold matching. by rewrite filter_cons, decide_True. Qed.

Lemma matching_cons_ne a q ps :
  Some (m_id (meta q)) ≠ a -> matching a (q :: ps) = matching a ps.
Proof. intros H. unfold matching. by rewrite filter_cons, decide_False. Qed.

(** ** Editing the active project *)

(** The map over the project list: it always returns, reads the clock once
    per project carrying the active id, in list order, and leaves every
    other project as it was. *)
Lemma mapM_touchActive updater a ps c :
  exists ps',
    mapM (touchActive updater a) ps c
    = Some (ps', {| readings := readings c; elapsed := elapsed c + matching a ps |})
    /\ length ps' = length ps
    /\ forall i p, ps !! i = Some p ->
         ps' !! i = Some (touched updater a
                            (readings c (elapsed c + matching a (take i ps))) p).
Proof.
  revert c. induction ps as [|q ps IH]; intros c.
  - exists []. split; [|split; [done|intros i p Hi; by rewrite lookup_nil in Hi]].
    rewrite mapM_nil, Eff_ret_run. destruct c. cbn. do 3 f_equal. lia.
  - rewrite mapM_cons, Eff_bind_run. unfold touchActive at 1.
    destruct (decide (Some (m_id (meta q)) = a)) as [Ha|Ha].
    + rewrite bool_decide_eq_false_2 by (intros H; by apply H).
      cbn zeta. rewrite Eff_bind_run. unfold Date.now at 1.
      rewrite Eff_ret_run, Eff_bind_run.
      destruct (IH {| readings := readings c; elapsed := S (elapsed c) |})
        as (ps' & -> & Hlen & Hget).
      rewrite Eff_ret_run. eexists. split; [|split].
      * cbn [readings elapsed]. rewrite (matching_cons_eq _ _ _ Ha).
        do 3 f_equal. lia.
      * cbn. by rewrite Hlen.
      * intros [|i] p Hi; cbn in Hi.
        -- injection Hi as <-. cbn [lookup list_lookup take]. unfold touched.
           rewrite decide_True by done. do 4 f_equal. unfold matching. cbn. lia.
        -- etrans; [exact (Hget i p Hi)|]. cbn [readings elapsed take].
           rewrite (matching_cons_eq _ _ _ Ha). do 3 f_equal. lia.
    + rewrite bool_decide_eq_true_2 by done.
      rewrite Eff_ret_run, Eff_bind_run.
      destruct (IH c) as (ps' & -> & Hlen & Hget).
      rewrite Eff_ret_run. eexists. split; [|split].
      * by rewrite (matching_cons_ne _ _ _ Ha).
      * cbn. by rewrite Hlen.
      * intros [|i] p Hi; cbn in Hi.
        -- injection Hi as <-. cbn [lookup list_lookup take]. unfold touched.
           by rewrite decide_False.
        -- etrans; [exact (Hget i p Hi)|]. cbn [take].
           by rewrite (matching_cons_ne _ _ _ Ha).
Qed.

Lemma matching_take_lt a ps i p :
  ps !! i = Some p -> Some (m_id (meta p)) = a ->
  matching a (take i ps) < matching a ps.
Proof.
  intros Hi Hp. rewrite <- (take_drop_middle ps i p Hi) at 2.
  unfold matching. rewrite filter_app, length_app, filter_cons, decide_True by done.
  cbn [length]. lia.
Qed.

Lemma matching_none a ps :
  Forall (fun p => Some (m_id (meta p)) ≠ a) ps -> matching a ps = 0.
Proof.
  intros H. induction H as [|p ps Hp _ IH]; [reflexivity|].
  by rewrite matching_cons_ne.
Qed.




(** ** Import *)

(** On the render that shows the state, the handler does what its comment
    says: a document whose [meta.id] is carried by a project of the list is
    refused, the state returned as it was and the alert raised; any other
    document becomes the head of the list and the active project. *)
Lemma import_on_current_render (fileData : ProjectFile) (st : AppState) :
  (Exists (fun p => m_id (meta p) = m_id (meta fileData)) (projects st) ->
     handleImportProject (projects st) fileData st = (st, Some duplicate_id_alert))
  /\ (~ Exists (fun p => m_id (meta p) = m_id (meta fileData)) (projects st) ->
     handleImportProject (projects st) fileData st
     = ({| projects := fileData :: projects st;
           activeProjectId := Some (m_id (meta fileData)) |}, None)).
Proof.
  unfold handleImportProject. split; intros H.
  - by rewrite bool_decide_eq_true_2.
  - by rewrite bool_decide_eq_false_2.
Qed.

(** Whatever the list holds when the update is applied, a document whose id
    the render's list lacks is admitted, and one whose id the render's list
    has is refused. *)
Lemma import_tests_rendered (rendered : list ProjectFile) (fileData : ProjectFile)
    (st : AppState) :
  (m_id (meta fileData) ∈ map (fun p => m_id (meta p)) rendered ->
     handleImportProject rendered fileData st = (st, Some duplicate_id_alert))
  /\ (m_id (meta fileData) ∉ map (fun p => m_id (meta p)) rendered ->
     handleImportProject rendered fileData st
     = ({| projects := fileData :: projects st;
           activeProjectId := Some (m_id (meta fileData)) |}, None)).
Proof.
  unfold handleImportProject. split; intros H.
  - rewrite bool_decide_eq_true_2; [reflexivity|].
    apply list_elem_of_fmap in H as (p & E & Hp). apply Exists_exists. eauto.
  - rewrite bool_decide_eq_false_2; [reflexivity|].
    intros (p & Hp & E)%Exists_exists. apply H. apply list_elem_of_fmap. eauto.
Qed.

(** C2 (the code falls short of it).  The duplicate test reads the list of
    the render the handler belongs to, not the list the document is added
    to.  Two imports of the sample file issued from the render of the empty
    registry are both admitted, without an alert, and the list then holds
    the file twice; and from the render of a registry holding the file, a
    deletion of the file followed by its import is refused with the
    duplicate-id alert although no project carries the id any more. *)
Theorem import_tests_the_list_of_its_render :
  (let first := handleImportProject (projects initialState) sampleFile initialState in
   let second := handleImportProject (projects initialState) sampleFile first.1 in
   first.2 = None
   /\ second = ({| projects := [sampleFile; sampleFile];
                   activeProjectId := Some "PROJ_1700000000000" |}, None)
   /\ ~ NoDup (project_ids second.1))
  /\ (let st := {| projects := [sampleFile]; activeProjectId := None |} in
      let deleted := handleDeleteProject "PROJ_1700000000000" st in
      projects deleted = []
      /\ handleImportProject (projects st) sampleFile deleted
         = (deleted, Some duplicate_id_alert)).
Proof.
  split; cbn zeta.
  - split; [reflexivity|]. split; [reflexivity|].
    intros [H _]%NoDup_cons. apply H. left.
  - split; reflexivity.
Qed.

(** C1 (as amended).  A document whose embedded library has a dangling
    variable reference is imported like any other document; no integrity
    check is made.  By the handler of the render that shows the state it is
    refused, with the duplicate-id alert and the state unchanged, exactly
    when its [meta.id] is already in the list, and otherwise admitted whole
    at the head of the list.  And whatever render the handler belongs to,
    the list after the import is either the list before it or that list with
    the whole document in front. *)
Theorem import_ignores_referential_integrity (rendered : list ProjectFile)
    (fileData : ProjectFile) (st : AppState) :
  ~ refs_resolve (library (data fileData)) ->
  (In (m_id (meta fileData)) (project_ids st) ->
     handleImportProject (projects st) fileData st = (st, Some duplicate_id_alert))
  /\ (~ In (m_id (meta fileData)) (project_ids st) ->
     handleImportProject (projects st) fileData st
     = ({| projects := fileData :: projects st;
           activeProjectId := Some (m_id (meta fileData)) |}, None))
  /\ (projects (handleImportProject rendered fileData st).1 = projects st
      \/ projects (handleImportProject rendered fileData st).1 = fileData :: projects st).
Proof.
  intros _.
  assert (Hiff : In (m_id (meta fileData)) (project_ids st)
                 <-> Exists (fun p => m_id (meta p) = m_id (meta fileData)) (projects st)).
  { unfold project_ids. rewrite in_map_iff, Exists_exists.
    split; intros (p & H1 & H2); exists p; [split|split]; try done;
      by apply list_elem_of_In. }
  unfold handleImportProject. split; [|split].
  - intros H%Hiff. by rewrite bool_decide_eq_true_2.
  - intros H. rewrite bool_decide_eq_false_2; [done|]. by rewrite <- Hiff.
  - case_bool_decide; [by left|by right].
Qed.

(** ** Edits *)


(** C5.  Let a project be active ([activeProjectId] holds its non-empty id).
    Every edit made through one of the three setter wrappers returns, and in
    the resulting list the project, at its position, has [meta.lastModified]
    equal to a reading of the clock taken during that edit: the reading of
    the call to [Date.now()] made for it, one call per project carrying the
    active id, in list order. *)
Theorem edit_bumps_lastModified (e : Edit) (st : AppState) (c : Clock)
    (a : string) (i : nat) (p : ProjectFile) :
  activeProjectId st = Some a -> a <> ""%string ->
  projects st !! i = Some p -> m_id (meta p) = a ->
  exists st' c' p',
    applyEdit e st c = Some (st', c')
    /\ projects st' !! i = Some p'
    /\ m_lastModified (meta p')
       = readings c (elapsed c + matching (Some a) (take i (projects st)))
    /\ elapsed c + matching (Some a) (take i (projects st)) < elapsed c'
    /\ readings c' = readings c.
Proof.
  intros Ha Hne Hi Hp.
  assert (Hgen : forall updater, exists st' c' p',
             updateActiveProjectData updater st c = Some (st', c')
             /\ projects st' !! i = Some p'
             /\ m_lastModified (meta p')
                = readings c (elapsed c + matching (Some a) (take i (projects st)))
             /\ elapsed c + matching (Some a) (take i (projects st)) < elapsed c'
             /\ readings c' = readings c).
  { intros updater. unfold updateActiveProjectData. rewrite Ha. cbn [truthy].
    apply String.eqb_neq in Hne. rewrite Hne. cbn [negb].
    rewrite Eff_bind_run.
    destruct (mapM_touchActive updater (Some a) (projects st) c)
      as (ps' & E & Hlen & Hget).
    rewrite E, Eff_ret_run. do 3 eexists. split; [reflexivity|].
    split; [exact (Hget i p Hi)|]. unfold touched.
    rewrite decide_True by congruence. cbn [meta with_lastModified m_lastModified].
    split; [reflexivity|]. split; [|reflexivity]. cbn [elapsed].
    pose proof (matching_take_lt (Some a) _ i p Hi ltac:(congruence)). lia. }
  destruct e; apply Hgen.
Qed.

(** ** Create *)

Lemma Date_now_run c :
  Date.now c = Some (readings c (elapsed c),
                     {| readings := readings c; elapsed := S (elapsed c) |}).
Proof. reflexivity. Qed.

Lemma lift_Some_run {A : Type} (a : A) (c : Clock) : lift (Some a) c = Some (a, c).
Proof. reflexivity. Qed.

(** Creation always returns: it reads the clock three times, for the id, for
    [createdAt] and for [lastModified], and puts the new project in front. *)
Lemma handleCreateProject_run name description st c :
  handleCreateProject name description st c
  = Some ({| projects :=
               {| meta := {| m_id := "PROJ_" +:+ Number_toString (readings c (elapsed c));
                             m_name := name;
                             m_description := description;
                             m_createdAt := readings c (S (elapsed c));
                             m_lastModified := readings c (S (S (elapsed c))) |};
                  data := {| project := []; library := INITIAL_LIBRARY;
                             versions := [] |} |} :: projects st;
             activeProjectId :=
               Some ("PROJ_" +:+ Number_toString (readings c (elapsed c))) |},
          {| readings := readings c; elapsed := S (S (S (elapsed c))) |}).
Proof.
  unfold handleCreateProject.
  rewrite Eff_bind_run, Date_now_run, Eff_bind_run, Date_now_run.
  rewrite Eff_bind_run, Date_now_run, Eff_bind_run.
  rewrite deepClone_id, lift_Some_run. reflexivity.
Qed.

(** The copy idiom on the heap: from an object of a closed heap that reads
    as a well-formed value, it builds that value anew, however much the heap
    has grown meanwhile. *)
Lemma deepClone_object_run (h ext : heap) (init : val) (J : json) :
  closed h = true -> below (length h) init = true ->
  read (length h) h init = Some J -> wf J = true ->
  deepClone_object init (h ++ ext) = Some (build J (h ++ ext)).
Proof.
  intros Hcl Hinit Hread Hwf. unfold deepClone_object, stringify_object, parse_object.
  rewrite (read_ext _ h ext init Hcl Hinit).
  rewrite (read_mono _ _ _ _ Hread) by (rewrite length_app; lia).
  cbn -[JSON.parse JSON.stringify build]. by rewrite (parse_stringify _ Hwf).
Qed.

Lemma newProject_run name description init (h : heap) c (J : json) :
  closed h = true -> below (length h) init = true ->
  read (length h) h init = Some J -> wf J = true ->
  newProject name description init h c
  = let r_meta :=
      alloc (CObj [("id", VStr ("PROJ_" +:+ Number_toString (readings c (elapsed c))));
                   ("name", VStr name);
                   ("description", VStr description);
                   ("createdAt", VNum (readings c (S (elapsed c))));
                   ("lastModified", VNum (readings c (S (S (elapsed c)))))]) h in
    let r_project := alloc (CArr []) r_meta.2 in
    let r_library := build J r_project.2 in
    let r_versions := alloc (CArr []) r_library.2 in
    let r_data := alloc (CObj [("project", r_project.1);
                               ("library", r_library.1);
                               ("versions", r_versions.1)]) r_versions.2 in
    Some (alloc (CObj [("meta", r_meta.1); ("data", r_data.1)]) r_data.2,
          {| readings := readings c; elapsed := S (S (S (elapsed c))) |}).
Proof.
  intros Hcl Hinit Hread Hwf. unfold newProject.
  rewrite Eff_bind_run, Date_now_run, Eff_bind_run, Date_now_run.
  rewrite Eff_bind_run, Date_now_run, Eff_bind_run.
  cbn [alloc fst snd readings elapsed]. rewrite <- (app_assoc h).
  rewrite (deepClone_object_run h _ init J Hcl Hinit Hread Hwf), lift_Some_run.
  reflexivity.
Qed.

Lemma lookup_snoc_here {A : Type} (l : list A) (x : A) : (l ++ [x]) !! length l = Some x.
Proof. by apply list_lookup_middle. Qed.

(** C4 (as amended).  Creating a project always returns and puts in front of
    the list a Project File whose tree and version list are empty, whose
    library is equal to the built-in default library, and whose meta carries
    the given name and description; [createdAt] is the second and
    [lastModified] the third of three consecutive readings of the clock, the
    first of which names the id.  The library does not alias the default
    library: on a heap where the constant [INITIAL_LIBRARY] refers to the
    object [init], the project object [newProject] holds the project
    returned, its [data.library] reads as the default library, every object
    it is made of is new, none of them is an object of [init], no existing
    object has been changed, and whatever is written into an object of the
    new library afterwards, [init] still reads as the default library. *)
Theorem create_project (name description : string) (st : AppState) (c : Clock)
    (h : heap) (init : val) :
  closed h = true -> below (length h) init = true ->
  read (length h) h init = Some (LibraryData_toJSON INITIAL_LIBRARY) ->
  exists p c' o h' lib,
    handleCreateProject name description st c
    = Some ({| projects := p :: projects st;
               activeProjectId := Some (m_id (meta p)) |}, c')
    /\ project (data p) = []
    /\ versions (data p) = []
    /\ library (data p) = INITIAL_LIBRARY
    /\ m_name (meta p) = name
    /\ m_description (meta p) = description
    /\ m_id (meta p) = "PROJ_" +:+ Number_toString (readings c (elapsed c))
    /\ m_createdAt (meta p) = readings c (S (elapsed c))
    /\ m_lastModified (meta p) = readings c (S (S (elapsed c)))
    /\ readings c' = readings c
    /\ elapsed c' = S (S (S (elapsed c)))
    /\ newProject name description init h c = Some ((o, h'), c')
    /\ read (length h') h' o = Some (ProjectFile_toJSON p)
    /\ field "data" h' o ≫= field "library" h' = Some lib
    /\ read (length h') h' lib = Some (LibraryData_toJSON INITIAL_LIBRARY)
    /\ (exists l, reaches h' lib l)
    /\ (forall l, reaches h' lib l -> length h <= l)
    /\ (forall l, reaches h' lib l -> ~ reaches h' init l)
    /\ (exists k, h' = h ++ k)
    /\ (forall l x, reaches h' lib l ->
          read (length h') (<[l := x]> h') init
          = Some (LibraryData_toJSON INITIAL_LIBRARY)).
Proof.
  intros Hcl Hinit Hread. rewrite handleCreateProject_run.
  rewrite (newProject_run name description init h c _ Hcl Hinit Hread (wf_library _)).
  cbn zeta. cbn [alloc fst snd].
  set (J := LibraryData_toJSON INITIAL_LIBRARY) in *.
  set (cm := CObj [("id", VStr ("PROJ_" +:+ Number_toString (readings c (elapsed c))));
                   ("name", VStr name); ("description", VStr description);
                   ("createdAt", VNum (readings c (S (elapsed c))));
                   ("lastModified", VNum (readings c (S (S (elapsed c)))))]).
  set (h2 := (h ++ [cm]) ++ [CArr []]).
  destruct (build_built J h2) as (k & E & R & Sg & Rd).
  destruct (build J h2) as [lib h3]. cbn [fst snd] in *. subst h3.
  set (cd := CObj [("project", VRef (length (h ++ [cm]))); ("library", lib);
                   ("versions", VRef (length (h2 ++ k)))]).
  set (co := CObj [("meta", VRef (length h)); ("data", VRef (length ((h2 ++ k) ++ [CArr []])))]).
  set (h' := (((h2 ++ k) ++ [CArr []]) ++ [cd]) ++ [co]).
  assert (Hh2 : length h2 = length h + 2) by (unfold h2; rewrite !length_app; cbn; lia).
  assert (Hshape : h' = h2 ++ k ++ [CArr []; cd; co])
    by (unfold h'; rewrite <- !app_assoc; reflexivity).
  assert (Hbase : h' = h ++ [cm; CArr []] ++ k ++ [CArr []; cd; co])
    by (rewrite Hshape; unfold h2; rewrite <- !app_assoc; reflexivity).
  assert (Hlen : length h' = S (S (S (length k + length h2))))
    by (rewrite Hshape, !length_app; cbn; lia).
  assert (Lmeta : h' !! length h = Some cm).
  { unfold h', h2. do 5 apply lookup_app_l_Some. apply lookup_snoc_here. }
  assert (Lproject : h' !! length (h ++ [cm]) = Some (CArr [])).
  { unfold h', h2. do 4 apply lookup_app_l_Some. apply lookup_snoc_here. }
  assert (Lversions : h' !! length (h2 ++ k) = Some (CArr [])).
  { unfold h'. do 2 apply lookup_app_l_Some. apply lookup_snoc_here. }
  assert (Ldata : h' !! length ((h2 ++ k) ++ [CArr []]) = Some cd).
  { unfold h'. apply lookup_app_l_Some. apply lookup_snoc_here. }
  assert (Lroot : h' !! length (((h2 ++ k) ++ [CArr []]) ++ [cd]) = Some co).
  { unfold h'. apply lookup_snoc_here. }
  assert (Hlib : forall fuel, length k <= fuel -> read fuel h' lib = Some J).
  { intros fuel Hf. rewrite Hshape. by apply Rd. }
  assert (Hnew : forall l, reaches h' lib l -> length h2 <= l < length h2 + length k).
  { intros l Hl. rewrite Hshape in Hl. by eapply reaches_segment. }
  assert (Hold : forall l, reaches h' init l -> l < length h).
  { intros l Hl. rewrite Hbase in Hl. by eapply reaches_closed. }
  exists {| meta := {| m_id := "PROJ_" +:+ Number_toString (readings c (elapsed c));
                       m_name := name; m_description := description;
                       m_createdAt := readings c (S (elapsed c));
                       m_lastModified := readings c (S (S (elapsed c))) |};
            data := {| project := []; library := INITIAL_LIBRARY; versions := [] |} |},
         {| readings := readings c; elapsed := S (S (S (elapsed c))) |},
         (VRef (length (((h2 ++ k) ++ [CArr []]) ++ [cd]))), h', lib.
  split; [reflexivity|].
  cbn [data meta project versions library m_name m_description m_id m_createdAt
       m_lastModified readings elapsed].
  do 10 (split; [reflexivity|]). split; [reflexivity|]. split; [|split; [|split]].
  - rewrite Hlen, read_ref, Lroot. unfold co. cbn [map fst snd].
    rewrite !mapM_option_cons, !read_ref, Lmeta, Ldata. unfold cm, cd. cbn [map fst snd].
    rewrite !mapM_option_cons, read_ref, Lproject.
    rewrite (Hlib (S (length k + length h2))) by lia.
    rewrite read_ref, Lversions. reflexivity.
  - unfold field. rewrite Lroot. unfold co. cbn. rewrite Ldata. reflexivity.
  - apply Hlib. lia.
  - split; [|split; [|split; [|split]]].
    + destruct lib as [| | | |l0]; try (specialize (Hlib _ (Nat.le_refl _));
        destruct (length k); discriminate Hlib).
      exists l0. specialize (Hlib _ (Nat.le_refl _)).
      destruct (length k) as [|n]; [discriminate Hlib|]. rewrite read_ref in Hlib.
      destruct (h' !! l0) as [x|] eqn:E0; [|discriminate Hlib].
      by eapply reaches_here.
    + intros l Hl%Hnew. lia.
    + intros l Hl%Hnew Hl'%Hold. lia.
    + eexists. exact Hbase.
    + intros l x Hl%Hnew. rewrite Hbase, insert_app_r_alt by lia.
      rewrite (read_ext _ h _ init Hcl Hinit).
      apply (read_mono _ _ _ _ Hread). rewrite !length_app. lia.
Qed.

(** ** Uniqueness of project ids *)

Lemma import_preserves_unique fileData st :
  NoDup (project_ids st) -> NoDup (project_ids (handleImportProject (projects st) fileData st).1).
Proof.
  intros Hnd. unfold handleImportProject. case_bool_decide as Hex; [exact Hnd|].
  unfold project_ids. cbn. constructor; [|exact Hnd].
  intros Hin. apply Hex. apply list_elem_of_fmap in Hin as (p & E & Hp).
  apply Exists_exists. eauto.
Qed.

Lemma delete_preserves_unique id st :
  NoDup (project_ids st) -> NoDup (project_ids (handleDeleteProject id st)).
Proof.
  unfold project_ids, handleDeleteProject. cbn [projects].
  intros Hnd. eapply sublist_NoDup; [exact Hnd|].
  apply (fmap_sublist _), sublist_filter.
Qed.

(** Creation keeps the ids distinct only if the clock happens to name an id
    that no project carries yet; nothing in [handleCreateProject] checks. *)
Lemma create_unique_iff_fresh name description st c st' c' :
  NoDup (project_ids st) ->
  handleCreateProject name description st c = Some (st', c') ->
  NoDup (project_ids st')
  <-> ("PROJ_" +:+ Number_toString (readings c (elapsed c))) ∉ project_ids st.
Proof.
  intros Hnd. rewrite handleCreateProject_run. intros [= <- <-].
  unfold project_ids. cbn. rewrite NoDup_cons. tauto.
Qed.

Lemma repeated_head_not_NoDup (x : string) (l : list string) : ~ NoDup (x :: x :: l).
Proof. intros [H _]%NoDup_cons. apply H. left. Qed.

(** C6 (the code falls short of it).  Two registries reached from the empty
    list in which two projects share one id: two projects created while the
    clock shows the same millisecond, and a project created at the very
    millisecond an imported file is named after, on a clock that advances
    with every reading. *)
Theorem create_can_repeat_an_id :
  (exists st c,
     run [ActCreate "Study A" ""; ActCreate "Study B" ""] initialState
         (frozen 1700000000000) = Some (st, c)
     /\ project_ids st = ["PROJ_1700000000000"; "PROJ_1700000000000"]
     /\ ~ NoDup (project_ids st))
  /\ (exists st c,
        run [ActImport sampleFile; ActCreate "Study B" ""] initialState
            (ticking 1700000000000) = Some (st, c)
        /\ project_ids st = ["PROJ_1700000000000"; "PROJ_1700000000000"]
        /\ ~ NoDup (project_ids st)).
Proof.
  split.
  - cbn [run step]. rewrite Eff_bind_run, handleCreateProject_run.
    rewrite Eff_bind_run, handleCreateProject_run, Eff_ret_run.
    do 2 eexists. split; [reflexivity|]. split; [vm_compute; reflexivity|].
    intros H. vm_compute in H. exact (repeated_head_not_NoDup _ _ H).
  - cbn [run step]. rewrite Eff_bind_run, Eff_ret_run.
    rewrite Eff_bind_run, handleCreateProject_run, Eff_ret_run.
    do 2 eexists. split; [reflexivity|]. split; [vm_compute; reflexivity|].
    intros H. vm_compute in H. exact (repeated_head_not_NoDup _ _ H).
Qed.

(** ** The built-in library *)

(** C7.  In [INITIAL_LIBRARY] no two variables and no two forms share an id,
    every id listed in a form's [variableIds] or [headerVariableIds] is the
    id of one of its variables, and every variable of type select or radio
    has a list of options with at least one entry. *)
Theorem initial_library_invariants :
  ids_unique INITIAL_LIBRARY
  /\ refs_resolve INITIAL_LIBRARY
  /\ options_present INITIAL_LIBRARY.
Proof.
  split; [|split].
  - apply (bool_decide_unpack _). by vm_compute.
  - apply (bool_decide_unpack _). by vm_compute.
  - unfold options_present, INITIAL_LIBRARY. cbn [variables].
    repeat constructor; cbn; intros H; try discriminate H; eauto.
Qed.

(** ** Saving and loading *)

Lemma persistEffectWith_nil JSON_stringify ls :
  persistEffectWith JSON_stringify [] ls = ls.
Proof. reflexivity. Qed.

Lemma persistEffectWith_cons JSON_stringify p ps ls :
  persistEffectWith JSON_stringify (p :: ps) ls
  = <[PROJECTS_STORAGE_KEY := JSON_stringify (JArr (p :: ps))]> ls.
Proof. reflexivity. Qed.


(** C9.  Whatever [JSON.parse] is: the list after the load effect is empty
    when nothing is stored under the storage key, when the stored text does
    not parse, and when it parses to a value that is not an array; a
    non-empty text that parses to an array installs exactly the elements of
    that array; and a non-empty list after the load effect is always the
    array the stored text parses to. *)
Theorem load_installs_only_arrays (JSON_parse : string -> option json)
    (ls : gmap string string) :
  (ls !! PROJECTS_STORAGE_KEY = None -> loadEffectWith JSON_parse ls = [])
  /\ (forall saved, ls !! PROJECTS_STORAGE_KEY = Some saved ->
        JSON_parse saved = None -> loadEffectWith JSON_parse ls = [])
  /\ (forall saved v, ls !! PROJECTS_STORAGE_KEY = Some saved ->
        JSON_parse saved = Some v -> isArray v = false ->
        loadEffectWith JSON_parse ls = [])
  /\ (forall saved l, ls !! PROJECTS_STORAGE_KEY = Some saved ->
        saved <> ""%string -> JSON_parse saved = Some (JArr l) ->
        loadEffectWith JSON_parse ls = l)
  /\ (loadEffectWith JSON_parse ls <> [] ->
        exists saved, ls !! PROJECTS_STORAGE_KEY = Some saved
          /\ JSON_parse saved = Some (JArr (loadEffectWith JSON_parse ls))).
Proof.
  unfold loadEffectWith, localStorage.getItem. repeat split.
  - by intros ->.
  - intros saved -> ->. by destruct (truthy (Some saved)).
  - intros saved v -> -> ->. by destruct (truthy (Some saved)).
  - intros saved l -> Hne%String.eqb_neq ->. cbn. by rewrite Hne.
  - destruct (ls !! PROJECTS_STORAGE_KEY) as [saved|]; [|done].
    destruct (truthy (Some saved)); [|done].
    destruct (JSON_parse saved) as [[| | | |l|]|] eqn:E; cbn; try done.
    intros _. by exists saved.
Qed.

(** C3.  A Project File whose time stamps are safe integers and whose nodes
    and versions are well-formed values is read back from its serialisation
    exactly: [JSON.parse] of [JSON.stringify] of its run-time value is that
    value, no other file has that run-time value (so order, numbers and the
    difference between an absent and an empty optional field are all kept),
    and a list of such files saved by the save effect is the list the load
    effect installs. *)
Theorem project_file_round_trip (f : ProjectFile) :
  ProjectFile_wf f = true ->
  JSON.parse (JSON.stringify (ProjectFile_toJSON f)) = Some (ProjectFile_toJSON f)
  /\ (forall g, ProjectFile_toJSON g = ProjectFile_toJSON f -> g = f)
  /\ (forall ps ls, Forall (fun p => ProjectFile_wf p = true) ps ->
        loadEffect (persistEffect (runtime (f :: ps)) ls) = runtime (f :: ps)).
Proof.
  intros Hf. split; [by apply parse_stringify, wf_project_file|].
  split; [intros g; apply ProjectFile_toJSON_inj|].
  intros ps ls Hps. unfold loadEffect, persistEffect.
  cbn [runtime map]. rewrite persistEffectWith_cons.
  unfold loadEffectWith, localStorage.getItem. rewrite lookup_insert_eq.
  assert (Hwf : wf (JArr (runtime (f :: ps))) = true) by (apply wf_runtime; by constructor).
  cbn [runtime map] in Hwf. rewrite (parse_stringify _ Hwf). reflexivity.
Qed.

End AppFacts.

(* ===================================================================== *)
(** * 8. The statements at concrete inputs *)
(* ===================================================================== *)

Lemma danglingLibrary_dangles : ~ refs_resolve (library (data danglingFile)).
Proof.
  unfold refs_resolve. cbn. intros H.
  apply Forall_cons in H as [H _]. apply Forall_cons in H as [H _].
  by apply elem_of_nil in H.
Defined.

(** C1 as the claim states it fails: the sample document has a form naming
    the absent variable [MISSING], and importing it into the empty registry
    raises no alert and puts it in the list. *)
Lemma import_admits_dangling_reference :
  ~ refs_resolve (library (data danglingFile))
  /\ handleImportProject (projects initialState) danglingFile initialState
     = ({| projects := [danglingFile]; activeProjectId := Some "PROJ_1" |}, None).
Proof. split; [exact danglingLibrary_dangles|reflexivity]. Qed.

(** C1 as amended, at the sample document and the empty registry. *)
Lemma import_ignores_referential_integrity_witness :
  ~ refs_resolve (library (data danglingFile))
  /\ handleImportProject (projects initialState) danglingFile initialState
     = ({| projects := [danglingFile];
           activeProjectId := Some (m_id (meta danglingFile)) |}, None).
Proof.
  split; [exact danglingLibrary_dangles|].
  apply (proj1 (proj2 (import_ignores_referential_integrity [] danglingFile initialState
                         danglingLibrary_dangles))).
  intros H. exact H.
Defined.

(** C4 as the claim states it fails: on a clock that advances between two
    readings the new project has [lastModified] one millisecond after
    [createdAt]. *)
Lemma create_timestamps_can_differ :
  exists st c p,
    handleCreateProject "Study A" "" initialState (ticking 1700000000000) = Some (st, c)
    /\ projects st = [p]
    /\ m_createdAt (meta p) = 1700000000001%Z
    /\ m_lastModified (meta p) = 1700000000002%Z
    /\ m_createdAt (meta p) <> m_lastModified (meta p).
Proof.
  rewrite handleCreateProject_run. do 3 eexists. split; [reflexivity|].
  split; [reflexivity|]. cbn. repeat split. discriminate.
Qed.

(** C4 on the heap the module starts with, which holds the objects of the
    literal [INITIAL_LIBRARY] and nothing else: the library of the project
    created reads as the default library and shares no object with it. *)
Lemma create_project_witness :
  closed INITIAL_LIBRARY_object.2 = true
  /\ exists o h' lib c',
       newProject "Study A" "" INITIAL_LIBRARY_object.1 INITIAL_LIBRARY_object.2
         (ticking 1700000000000) = Some ((o, h'), c')
       /\ field "data" h' o ≫= field "library" h' = Some lib
       /\ read (length h') h' lib = Some (LibraryData_toJSON INITIAL_LIBRARY)
       /\ (exists l, reaches h' lib l)
       /\ (forall l, reaches h' lib l -> ~ reaches h' INITIAL_LIBRARY_object.1 l).
Proof.
  assert (Hcl : closed INITIAL_LIBRARY_object.2 = true) by (vm_compute; reflexivity).
  assert (Hinit : below (length INITIAL_LIBRARY_object.2) INITIAL_LIBRARY_object.1 = true)
    by (vm_compute; reflexivity).
  assert (Hread : read (length INITIAL_LIBRARY_object.2) INITIAL_LIBRARY_object.2
                    INITIAL_LIBRARY_object.1
                  = Some (LibraryData_toJSON INITIAL_LIBRARY))
    by (vm_compute; reflexivity).
  split; [exact Hcl|].
  destruct (create_project "Study A" "" initialState (ticking 1700000000000)
              INITIAL_LIBRARY_object.2 INITIAL_LIBRARY_object.1 Hcl Hinit Hread)
    as (p & c' & o & h' & lib & _ & _ & _ & _ & _ & _ & _ & _ & _ & _ & _
        & Hnew & _ & Hfield & Hlib & Hsome & _ & Hno & _).
  exists o, h', lib, c'. repeat split; assumption.
Defined.

(** The constant itself, had it been used for the library of the new
    project, is made of its own objects: the statement of C4 is not met by
    sharing. *)
Example INITIAL_LIBRARY_object_shares_with_itself :
  exists l, reaches INITIAL_LIBRARY_object.2 INITIAL_LIBRARY_object.1 l
            /\ ~ (forall l', reaches INITIAL_LIBRARY_object.2 INITIAL_LIBRARY_object.1 l' ->
                    ~ reaches INITIAL_LIBRARY_object.2 INITIAL_LIBRARY_object.1 l').
Proof.
  destruct (INITIAL_LIBRARY_object) as [v h] eqn:E. cbn [fst snd].
  assert (Hr : read (length h) h v = Some (LibraryData_toJSON INITIAL_LIBRARY)).
  { replace h with INITIAL_LIBRARY_object.2 by (by rewrite E).
    replace v with INITIAL_LIBRARY_object.1 by (by rewrite E).
    vm_compute. reflexivity. }
  destruct v as [| | | |l]; try (destruct (length h); discriminate Hr).
  destruct (length h) as [|n]; [discriminate Hr|]. cbn [read] in Hr.
  destruct (h !! l) as [x|] eqn:Hl; [|discriminate Hr].
  exists l. split; [by eapply reaches_here|].
  intros H. eapply H; by eapply reaches_here.
Qed.


(** C5 at the sample registry: the open project is the second of the list,
    and replacing its tree stamps it with the first reading of the clock. *)
Lemma edit_bumps_lastModified_witness :
  exists st' c' p',
    applyEdit (EditProject (Value [])) sampleState (ticking 1700000400000) = Some (st', c')
    /\ projects st' !! 1 = Some p'
    /\ m_lastModified (meta p')
       = readings (ticking 1700000400000)
           (elapsed (ticking 1700000400000)
            + matching (Some "PROJ_1") (take 1 (projects sampleState)))
    /\ elapsed (ticking 1700000400000)
       + matching (Some "PROJ_1") (take 1 (projects sampleState)) < elapsed c'
    /\ readings c' = readings (ticking 1700000400000).
Proof.
  apply (edit_bumps_lastModified (EditProject (Value [])) sampleState
           (ticking 1700000400000) "PROJ_1" 1 danglingFile).
  - reflexivity.
  - discriminate.
  - reflexivity.
  - reflexivity.
Defined.


(** C9 with the modelled [JSON.parse]: nothing stored, a text that does not
    parse, a text that parses to an object, and a text that parses to an
    array. *)
Lemma load_installs_only_arrays_witness :
  loadEffect ∅ = []
  /\ loadEffect (<[PROJECTS_STORAGE_KEY := "[1,"]> ∅) = []
  /\ loadEffect (<[PROJECTS_STORAGE_KEY := "{}"]> ∅) = []
  /\ loadEffect (<[PROJECTS_STORAGE_KEY := "[1, 2]"]> ∅) = [JNum 1; JNum 2].
Proof.
  split; [|split; [|split]].
  - apply (proj1 (load_installs_only_arrays JSON.parse ∅)). reflexivity.
  - apply (proj1 (proj2 (load_installs_only_arrays JSON.parse
                           (<[PROJECTS_STORAGE_KEY := "[1,"]> ∅))) "[1,");
      reflexivity.
  - apply (proj1 (proj2 (proj2 (load_installs_only_arrays JSON.parse
                                  (<[PROJECTS_STORAGE_KEY := "{}"]> ∅))))
             "{}" (JObj [])); reflexivity.
  - apply (proj1 (proj2 (proj2 (proj2 (load_installs_only_arrays JSON.parse
                                         (<[PROJECTS_STORAGE_KEY := "[1, 2]"]> ∅)))))
             "[1, 2]" [JNum 1; JNum 2]); [reflexivity|discriminate|reflexivity].
Defined.

(** C3 at the sample file. *)
Lemma project_file_round_trip_witness :
  ProjectFile_wf sampleFile = true
  /\ JSON.parse (JSON.stringify (ProjectFile_toJSON sampleFile))
     = Some (ProjectFile_toJSON sampleFile)
  /\ loadEffect (persistEffect (runtime [sampleFile; danglingFile]) ∅)
     = runtime [sampleFile; danglingFile].
Proof.
  split; [reflexivity|].
  destruct (project_file_round_trip sampleFile eq_refl) as (H1 & _ & H3).
  split; [exact H1|]. apply (H3 [danglingFile] ∅).
  apply Forall_cons. split; [reflexivity|apply Forall_nil; exact I].
Defined.

(* ===================================================================== *)
(** * 9. The definitions on small inputs *)
(* ===================================================================== *)

Example stringify_array :
  JSON.stringify (JArr [JNum (-3); JNull; JBool true; JArr []; JObj []])
  = "[-3,null,true,[],{}]".
Proof. reflexivity. Qed.

Example parse_white_space :
  JSON.parse " [ 1 , [ ] , { } ] " = Some (JArr [JNum 1; JArr []; JObj []]).
Proof. reflexivity. Qed.

Example parse_rejects_leading_zero : JSON.parse "01" = None.
Proof. reflexivity. Qed.

Example parse_rejects_trailing_comma : JSON.parse "[1,]" = None.
Proof. reflexivity. Qed.

Example parse_rejects_empty_text : JSON.parse "" = None.
Proof. reflexivity. Qed.

Example repeated_key_takes_last_value :
  obj_of_members [("a", JNum 1); ("b", JNum 2); ("a", JNum 3)]
  = [("a", JNum 3); ("b", JNum 2)].
Proof. reflexivity. Qed.

Example project_id_of_reading : "PROJ_" +:+ Number_toString 1700000000000
                                = "PROJ_1700000000000".
Proof. reflexivity. Qed.

Example empty_id_is_not_active :
  truthy (Some "") = false /\ truthy None = false /\ truthy (Some "PROJ_1") = true.
Proof. by repeat split. Qed.

Example active_project_of_sample : activeProject sampleState = Some danglingFile.
Proof. reflexivity. Qed.

Example delete_closes_the_open_project :
  handleDeleteProject "PROJ_1" sampleState
  = {| projects := [sampleFile]; activeProjectId := None |}.
Proof. reflexivity. Qed.

Example delete_of_another_project_keeps_it_open :
  handleDeleteProject "PROJ_1700000000000" sampleState
  = {| projects := [danglingFile]; activeProjectId := Some "PROJ_1" |}.
Proof. reflexivity. Qed.

Example load_after_mount_of_saved_sample :
  loadEffect (persistEffect (runtime [sampleFile]) ∅) = [ProjectFile_toJSON sampleFile].
Proof. vm_compute. reflexivity. Qed.

Example empty_list_is_never_saved :
  persistEffect (runtime []) (<[PROJECTS_STORAGE_KEY := "stale"]> ∅)
  = <[PROJECTS_STORAGE_KEY := "stale"]> ∅.
Proof. reflexivity. Qed.

(* ===================================================================== *)
(** * 10. More about the handlers and the view *)
(* ===================================================================== *)

Section HandlerFacts.

(** ** Lists *)

Lemma filter_all {A : Type} (P : A -> Prop) `{forall x, Decision (P x)} (l : list A) :
  Forall P l -> filter P l = l.
Proof.
  induction 1 as [|x l Hx _ IH]; [reflexivity|].
  by rewrite filter_cons_True, IH.
Qed.

(** [Array.prototype.find] returns the first element that passes the test. *)
Lemma find_first {A : Type} (P : A -> bool) (l : list A) (i : nat) (x : A) :
  l !! i = Some x -> P x = true ->
  (forall j y, j < i -> l !! j = Some y -> P y = false) ->
  List.find P l = Some x.
Proof.
  revert i. induction l as [|z l IH]; intros i Hi Hx Hbefore; [by rewrite lookup_nil in Hi|].
  destruct i as [|i]; cbn in Hi.
  - injection Hi as ->. cbn. by rewrite Hx.
  - cbn. rewrite (Hbefore 0 z); [|lia|reflexivity].
    apply (IH i Hi Hx). intros j y Hj Hy. apply (Hbefore (S j) y); [lia|exact Hy].
Qed.

Lemma find_Some_first {A : Type} (P : A -> bool) (l : list A) (x : A) :
  List.find P l = Some x ->
  exists i, l !! i = Some x /\ P x = true
            /\ forall j y, j < i -> l !! j = Some y -> P y = false.
Proof.
  induction l as [|z l IH]; [discriminate|]. cbn.
  destruct (P z) eqn:Hz.
  - intros [= ->]. exists 0. split; [reflexivity|]. split; [exact Hz|]. intros j y Hj. lia.
  - intros (i & Hi & Hx & Hbefore)%IH. exists (S i). split; [exact Hi|].
    split; [exact Hx|]. intros [|j] y Hj Hy; cbn in Hy.
    + by injection Hy as <-.
    + apply (Hbefore j y); [lia|exact Hy].
Qed.

Lemma find_none_of {A : Type} (P : A -> bool) (l : list A) :
  Forall (fun x => P x = false) l -> List.find P l = None.
Proof. induction 1 as [|x l Hx _ IH]; [reflexivity|]. cbn. by rewrite Hx. Qed.

(** Filtering out elements that fail the test anyway does not change what
    [find] returns. *)
Lemma find_filter {A : Type} (P : A -> bool) (Q : A -> Prop)
    `{forall x, Decision (Q x)} (l : list A) :
  (forall x, P x = true -> Q x) -> List.find P (filter Q l) = List.find P l.
Proof.
  intros HPQ. induction l as [|x l IH]; [reflexivity|].
  rewrite filter_cons. destruct (decide (Q x)) as [Hq|Hq]; cbn.
  - by rewrite IH.
  - destruct (P x) eqn:Hp; [|exact IH]. exfalso. by apply Hq, HPQ.
Qed.

Lemma not_in_ids_Forall id (ps : list ProjectFile) :
  id ∉ map (fun p => m_id (meta p)) ps -> Forall (fun p => m_id (meta p) ≠ id) ps.
Proof.
  intros Hid. apply Forall_forall. intros p Hp E. apply Hid.
  apply list_elem_of_fmap. eauto.
Qed.

Lemma PROJ_id_truthy s : truthy (Some ("PROJ_" +:+ s)) = true.
Proof. reflexivity. Qed.

(** ** Delete *)

(** X1.  Deleting an id removes every project that carries it, not just the
    first: afterwards no project has the id, a project is in the list exactly
    if it was there before under another id, and the projects kept are in
    the order they had. *)
Theorem delete_removes_every_project_with_the_id (id : string) (st : AppState) :
  (id ∉ project_ids (handleDeleteProject id st))
  /\ (forall p, p ∈ projects (handleDeleteProject id st)
                <-> p ∈ projects st /\ m_id (meta p) <> id)
  /\ projects (handleDeleteProject id st) `sublist_of` projects st.
Proof.
  unfold project_ids, handleDeleteProject. cbn [projects]. split; [|split].
  - intros (p & E & Hp)%list_elem_of_fmap.
    apply list_elem_of_filter in Hp as [Hne _]. by apply Hne.
  - intros p. rewrite list_elem_of_filter. tauto.
  - apply sublist_filter.
Qed.

(** X2.  Deleting an id that no project carries leaves the project list as
    it is; the whole state is unchanged unless that id was the (dangling)
    active id, which is then reset to null. *)
Theorem delete_of_absent_id (id : string) (st : AppState) :
  id ∉ project_ids st ->
  projects (handleDeleteProject id st) = projects st
  /\ (activeProjectId st <> Some id -> handleDeleteProject id st = st)
  /\ (activeProjectId st = Some id ->
        handleDeleteProject id st = handleBackToDashboard st).
Proof.
  intros Hid. unfold handleDeleteProject, handleBackToDashboard. cbn [projects].
  rewrite (filter_all _ _ (not_in_ids_Forall _ _ Hid)).
  split; [reflexivity|]. split; intros Ha.
  - rewrite bool_decide_eq_false_2 by done. by destruct st.
  - by rewrite bool_decide_eq_true_2.
Qed.

Lemma delete_of_absent_id_witness :
  projects (handleDeleteProject "PROJ_9" sampleState) = projects sampleState
  /\ handleDeleteProject "PROJ_9" sampleState = sampleState.
Proof.
  destruct (delete_of_absent_id "PROJ_9" sampleState) as (H1 & H2 & _).
  - intros H. repeat (apply elem_of_cons in H as [H|H]; [discriminate H|]).
    by apply elem_of_nil in H.
  - split; [exact H1|]. apply H2. discriminate.
Defined.

(** X3.  Deletions commute, and deleting the same id twice is deleting it
    once. *)
Theorem delete_commutes (a b : string) (st : AppState) :
  handleDeleteProject a (handleDeleteProject b st)
  = handleDeleteProject b (handleDeleteProject a st)
  /\ handleDeleteProject a (handleDeleteProject a st) = handleDeleteProject a st.
Proof.
  unfold handleDeleteProject. cbn [projects activeProjectId]. split; f_equal.
  - rewrite !list_filter_filter. apply list_filter_iff. tauto.
  - repeat case_bool_decide; congruence.
  - rewrite list_filter_filter. apply list_filter_iff. tauto.
  - repeat case_bool_decide; congruence.
Qed.

(** X4.  Importing a file whose id is new and then deleting that id gives
    back the project list as it was, with no project open. *)
Theorem import_then_delete (fileData : ProjectFile) (st : AppState) :
  m_id (meta fileData) ∉ project_ids st ->
  handleDeleteProject (m_id (meta fileData)) (handleImportProject (projects st) fileData st).1
  = handleBackToDashboard st.
Proof.
  intros Hid. unfold handleImportProject.
  rewrite bool_decide_eq_false_2.
  - unfold handleDeleteProject, handleBackToDashboard. cbn [fst projects activeProjectId].
    rewrite filter_cons_False by (intros H; by apply H).
    rewrite (filter_all _ _ (not_in_ids_Forall _ _ Hid)).
    by rewrite bool_decide_eq_true_2.
  - intros (p & Hp & E)%Exists_exists. apply Hid. apply list_elem_of_fmap. eauto.
Qed.

Lemma import_then_delete_witness :
  handleDeleteProject "PROJ_1700000000000"
    (handleImportProject [danglingFile] sampleFile
       {| projects := [danglingFile]; activeProjectId := Some "PROJ_1" |}).1
  = {| projects := [danglingFile]; activeProjectId := None |}.
Proof.
  apply (import_then_delete sampleFile
           {| projects := [danglingFile]; activeProjectId := Some "PROJ_1" |}).
  intros H. apply elem_of_cons in H as [H|H]; [discriminate H|].
  by apply elem_of_nil in H.
Defined.

(** ** The view *)

Lemma activeProject_head a p ps :
  m_id (meta p) = a ->
  activeProject {| projects := p :: ps; activeProjectId := Some a |} = Some p.
Proof. intros E. unfold activeProject. cbn. by rewrite bool_decide_eq_true_2. Qed.

Lemma render_builder st p :
  truthy (activeProjectId st) = true -> activeProject st = Some p ->
  render st = DocumentBuilder (library (data p)) (project (data p))
                (versions (data p)) (meta p).
Proof. intros Ht Hp. unfold render. by rewrite Ht, Hp. Qed.

Lemma render_no_active_id st :
  truthy (activeProjectId st) = false -> render st = ProjectDashboard (projects st).
Proof. intros Ht. unfold render. by rewrite Ht. Qed.

Lemma render_no_active_project st :
  activeProject st = None -> render st = ProjectDashboard (projects st).
Proof. intros Hp. unfold render. rewrite Hp. by destruct (negb _). Qed.

(** What the builder shows is a project of the list that carries the active
    id, and the first such project. *)
Lemma render_builder_inv st L t v m :
  render st = DocumentBuilder L t v m ->
  exists a i p,
    activeProjectId st = Some a /\ a <> ""%string
    /\ projects st !! i = Some p /\ m_id (meta p) = a
    /\ (forall j q, j < i -> projects st !! j = Some q -> m_id (meta q) <> a)
    /\ L = library (data p) /\ t = project (data p) /\ v = versions (data p)
    /\ m = meta p.
Proof.
  unfold render, activeProject.
  destruct (activeProjectId st) as [a|] eqn:Ea; cbn; [|discriminate].
  destruct (String.eqb_spec a "") as [->|Hne]; cbn; [discriminate|].
  destruct (List.find _ _) as [p|] eqn:Hfind; [|discriminate].
  intros [= <- <- <- <-].
  apply find_Some_first in Hfind as (i & Hi & Hp & Hbefore).
  exists a, i, p. apply bool_decide_eq_true in Hp.
  repeat split; try done.
  intros j q Hj Hq. specialize (Hbefore j q Hj Hq).
  by apply bool_decide_eq_false in Hbefore.
Qed.

(** X5.  A file admitted by the import is opened at once: it is the active
    project, and unless its id is the empty string the builder shows its
    library, tree, versions and meta. *)
Theorem import_opens_the_file (fileData : ProjectFile) (st : AppState) :
  m_id (meta fileData) ∉ project_ids st ->
  activeProject (handleImportProject (projects st) fileData st).1 = Some fileData
  /\ (m_id (meta fileData) <> ""%string ->
        render (handleImportProject (projects st) fileData st).1
        = DocumentBuilder (library (data fileData)) (project (data fileData))
            (versions (data fileData)) (meta fileData)).
Proof.
  intros Hid. unfold handleImportProject.
  rewrite bool_decide_eq_false_2.
  - cbn [fst]. split; [by apply activeProject_head|].
    intros Hne. apply render_builder; [|by apply activeProject_head].
    cbn. by apply String.eqb_neq in Hne as ->.
  - intros (p & Hp & E)%Exists_exists. apply Hid. apply list_elem_of_fmap. eauto.
Qed.

Lemma import_opens_the_file_witness :
  activeProject (handleImportProject (projects initialState) sampleFile initialState).1 = Some sampleFile
  /\ render (handleImportProject (projects initialState) sampleFile initialState).1
     = DocumentBuilder INITIAL_LIBRARY [sampleNode] [] (sampleMeta "PROJ_1700000000000").
Proof.
  destruct (import_opens_the_file sampleFile initialState) as [H1 H2].
  - intros H. by apply elem_of_nil in H.
  - split; [exact H1|]. apply H2. discriminate.
Defined.

(** X6.  A file whose [meta.id] is the empty string is admitted like any
    other (when no project has the empty id yet), but it can never be
    opened: after the import the dashboard is shown, opening the empty id
    shows the dashboard again, and an edit in that state changes nothing. *)
Theorem empty_id_is_never_opened (fileData : ProjectFile) (st : AppState)
    (e : Edit) (c : Clock) :
  m_id (meta fileData) = ""%string -> ""%string ∉ project_ids st ->
  let st' := (handleImportProject (projects st) fileData st).1 in
  projects st' = fileData :: projects st
  /\ render st' = ProjectDashboard (fileData :: projects st)
  /\ render (handleOpenProject "" st') = ProjectDashboard (fileData :: projects st)
  /\ applyEdit e (handleOpenProject "" st') c = Some (handleOpenProject "" st', c).
Proof.
  intros Hempty Hid. cbn zeta. unfold handleImportProject.
  rewrite bool_decide_eq_false_2.
  - cbn [fst projects]. rewrite Hempty. split; [reflexivity|].
    split; [by apply render_no_active_id|]. split; [by apply render_no_active_id|].
    by destruct e.
  - rewrite Hempty. intros (p & Hp & E)%Exists_exists. apply Hid.
    apply list_elem_of_fmap. eauto.
Qed.

Lemma empty_id_is_never_opened_witness :
  let f := {| meta := sampleMeta ""; data := data sampleFile |} in
  let st' := (handleImportProject (projects sampleState) f sampleState).1 in
  projects st' = f :: projects sampleState
  /\ render st' = ProjectDashboard (f :: projects sampleState)
  /\ render (handleOpenProject "" st') = ProjectDashboard (f :: projects sampleState)
  /\ applyEdit (EditProject (Value [])) (handleOpenProject "" st') (frozen 5)
     = Some (handleOpenProject "" st', frozen 5).
Proof.
  apply (empty_id_is_never_opened {| meta := sampleMeta ""; data := data sampleFile |}
           sampleState (EditProject (Value [])) (frozen 5)).
  - reflexivity.
  - intros H. repeat (apply elem_of_cons in H as [H|H]; [discriminate H|]).
    by apply elem_of_nil in H.
Defined.

(** X7.  Creating a project always opens it: whatever the list held before,
    even a project that already carries the new id, the builder then shows
    the new project, with the default library, an empty tree and no
    versions. *)
Theorem create_opens_the_new_project (name description : string)
    (st : AppState) (c : Clock) :
  exists st' c' m,
    handleCreateProject name description st c = Some (st', c')
    /\ render st' = DocumentBuilder INITIAL_LIBRARY [] [] m
    /\ m_name m = name /\ m_description m = description
    /\ activeProjectId st' = Some (m_id m).
Proof.
  rewrite handleCreateProject_run.
  match goal with |- context [Some (?st', _) = _] =>
    match st' with context [?x :: projects st] =>
      exists st'; eexists; exists (meta x); split; [reflexivity|];
      split; [|by repeat split];
      apply (render_builder st' x)
    end
  end.
  - apply PROJ_id_truthy.
  - by apply activeProject_head.
Qed.

(** X8.  Opening a non-empty id shows, in the builder, the first project of
    the list that carries the id; later projects with the same id are never
    shown. *)
Theorem open_shows_the_first_project_with_the_id (id : string) (st : AppState)
    (i : nat) (p : ProjectFile) :
  id <> ""%string -> projects st !! i = Some p -> m_id (meta p) = id ->
  (forall j q, j < i -> projects st !! j = Some q -> m_id (meta q) <> id) ->
  render (handleOpenProject id st)
  = DocumentBuilder (library (data p)) (project (data p)) (versions (data p)) (meta p).
Proof.
  intros Hne Hi Hp Hbefore. apply render_builder.
  - cbn. by apply String.eqb_neq in Hne as ->.
  - unfold activeProject, handleOpenProject. cbn.
    apply (find_first _ _ i p Hi); [by apply bool_decide_eq_true_2|].
    intros j q Hj Hq. apply bool_decide_eq_false_2. by apply (Hbefore j q).
Qed.

Lemma open_shows_the_first_project_with_the_id_witness :
  render (handleOpenProject "PROJ_1" (handleBackToDashboard sampleState))
  = DocumentBuilder danglingLibrary [] [] (sampleMeta "PROJ_1").
Proof.
  apply (open_shows_the_first_project_with_the_id "PROJ_1"
           (handleBackToDashboard sampleState) 1 danglingFile).
  - discriminate.
  - reflexivity.
  - reflexivity.
  - intros [|j] q Hj Hq; [|lia]. injection Hq as <-. discriminate.
Defined.

(** X9.  Opening an id that no project carries shows the dashboard, although
    the id stays recorded as active; going back always shows the dashboard;
    and the dashboard always lists the whole project list. *)
Theorem open_unknown_or_back_shows_dashboard (id : string) (st : AppState) :
  (id ∉ project_ids st ->
     render (handleOpenProject id st) = ProjectDashboard (projects st)
     /\ activeProjectId (handleOpenProject id st) = Some id)
  /\ render (handleBackToDashboard st) = ProjectDashboard (projects st)
  /\ (forall ps, render st = ProjectDashboard ps -> ps = projects st).
Proof.
  split; [|split].
  - intros Hid. split; [|reflexivity].
    change (ProjectDashboard (projects st))
      with (ProjectDashboard (projects (handleOpenProject id st))).
    apply render_no_active_project.
    unfold activeProject, handleOpenProject. cbn. apply find_none_of.
    eapply Forall_impl; [exact (not_in_ids_Forall _ _ Hid)|].
    intros p Hp. by apply bool_decide_eq_false_2.
  - reflexivity.
  - intros ps. unfold render.
    destruct (negb _), (activeProject st); congruence.
Qed.

Lemma open_unknown_or_back_shows_dashboard_witness :
  render (handleOpenProject "PROJ_9" sampleState) = ProjectDashboard (projects sampleState)
  /\ activeProjectId (handleOpenProject "PROJ_9" sampleState) = Some "PROJ_9".
Proof.
  apply (proj1 (open_unknown_or_back_shows_dashboard "PROJ_9" sampleState)).
  intros H. repeat (apply elem_of_cons in H as [H|H]; [discriminate H|]).
  by apply elem_of_nil in H.
Defined.

(** X10.  Deleting the open project returns to the dashboard, which lists
    the projects that are left.  Deleting any other id leaves the builder on
    the project it was showing. *)
Theorem delete_and_the_view (id : string) (st : AppState) :
  (activeProjectId st = Some id ->
     render (handleDeleteProject id st)
     = ProjectDashboard (projects (handleDeleteProject id st)))
  /\ (activeProjectId st <> Some id ->
        activeProject (handleDeleteProject id st) = activeProject st
        /\ forall L t v m, render st = DocumentBuilder L t v m ->
                           render (handleDeleteProject id st) = DocumentBuilder L t v m).
Proof.
  split; intros Ha.
  - apply render_no_active_id. unfold handleDeleteProject. cbn [activeProjectId].
    rewrite (bool_decide_eq_true_2 _ Ha). reflexivity.
  - assert (Hact : activeProject (handleDeleteProject id st) = activeProject st).
    { unfold activeProject, handleDeleteProject. cbn [activeProjectId projects].
      rewrite (bool_decide_eq_false_2 _ Ha).
      destruct (activeProjectId st) as [a|]; [|reflexivity]. cbn.
      apply find_filter. intros p Hp%bool_decide_eq_true. congruence. }
    assert (Hsame : activeProjectId (handleDeleteProject id st) = activeProjectId st).
    { unfold handleDeleteProject. cbn [activeProjectId].
      by rewrite (bool_decide_eq_false_2 _ Ha). }
    split; [exact Hact|]. intros L t v m. unfold render. rewrite Hact, Hsame.
    destruct (negb _), (activeProject st); done.
Qed.

Lemma delete_and_the_view_witness :
  render (handleDeleteProject "PROJ_1" sampleState) = ProjectDashboard [sampleFile]
  /\ render (handleDeleteProject "PROJ_1700000000000" sampleState)
     = DocumentBuilder danglingLibrary [] [] (sampleMeta "PROJ_1").
Proof.
  split.
  - apply (proj1 (delete_and_the_view "PROJ_1" sampleState)). reflexivity.
  - apply (proj2 (proj2 (delete_and_the_view "PROJ_1700000000000" sampleState)
                    ltac:(discriminate))).
    reflexivity.
Defined.

(** ** Edits, project by project *)

Lemma applyEdit_updater e : applyEdit e = updateActiveProjectData (edit_updater e).
Proof. by destruct e. Qed.

Lemma update_noop updater st c :
  truthy (activeProjectId st) = false -> updateActiveProjectData updater st c = Some (st, c).
Proof. intros Ht. unfold updateActiveProjectData. by rewrite Ht. Qed.

(** The result of an update when there is an active id, position by
    position. *)
Lemma update_run updater st c :
  truthy (activeProjectId st) = true ->
  exists ps',
    updateActiveProjectData updater st c
    = Some ({| projects := ps'; activeProjectId := activeProjectId st |},
            {| readings := readings c;
               elapsed := elapsed c + matching (activeProjectId st) (projects st) |})
    /\ length ps' = length (projects st)
    /\ forall i p, projects st !! i = Some p ->
         ps' !! i
         = Some (touched updater (activeProjectId st)
                   (readings c (elapsed c
                                + matching (activeProjectId st) (take i (projects st)))) p).
Proof.
  intros Ht. unfold updateActiveProjectData. rewrite Ht. cbn [negb].
  rewrite Eff_bind_run.
  destruct (mapM_touchActive updater (activeProjectId st) (projects st) c)
    as (ps' & E & Hlen & Hget).
  rewrite E, Eff_ret_run. by exists ps'.
Qed.

Lemma touched_id updater a t p : m_id (meta (touched updater a t p)) = m_id (meta p).
Proof. unfold touched. by case_decide. Qed.

Lemma touched_touched f g a t1 t2 p :
  touched g a t2 (touched f a t1 p) = touched (fun d => g (f d)) a t2 p.
Proof.
  unfold touched. destruct (decide (Some (m_id (meta p)) = a)) as [E|E].
  - cbn [meta with_lastModified m_id]. by rewrite decide_True.
  - by rewrite decide_False.
Qed.

Lemma touched_ext f g a t p : (forall d, f d = g d) -> touched f a t p = touched g a t p.
Proof. intros H. unfold touched. by rewrite H. Qed.

(** A list that is, position by position, the image of another under
    functions that keep the id has the same ids. *)
Lemma pointwise_ids (ps ps' : list ProjectFile) (h : nat -> ProjectFile -> ProjectFile) :
  length ps' = length ps ->
  (forall i p, ps !! i = Some p -> ps' !! i = Some (h i p)) ->
  (forall i p, m_id (meta (h i p)) = m_id (meta p)) ->
  map (fun p => m_id (meta p)) ps' = map (fun p => m_id (meta p)) ps.
Proof.
  intros Hlen Hget Hid. apply list_eq. intros i.
  change (map ?f ?l) with (f <$> l). rewrite !list_lookup_fmap.
  destruct (ps !! i) as [p|] eqn:Hi.
  - rewrite (Hget i p Hi). cbn. by rewrite Hid.
  - apply lookup_ge_None in Hi. rewrite (lookup_ge_None_2 ps' i); [reflexivity|lia].
Qed.

(** How many projects carry an id depends on the ids only. *)
Lemma matching_ids a ps :
  matching a ps = length (filter (fun x => Some x = a) (map (fun p => m_id (meta p)) ps)).
Proof.
  induction ps as [|p ps IH]; [reflexivity|]. cbn [map]. rewrite filter_cons.
  destruct (decide (Some (m_id (meta p)) = a)) as [E|E].
  - rewrite matching_cons_eq by done. cbn. by rewrite IH.
  - rewrite matching_cons_ne by done. exact IH.
Qed.

Lemma matching_take_same_ids a i ps ps' :
  map (fun p => m_id (meta p)) ps' = map (fun p => m_id (meta p)) ps ->
  matching a (take i ps') = matching a (take i ps).
Proof.
  intros H. rewrite !matching_ids. change (map ?f ?l) with (f <$> l) in *.
  by rewrite !fmap_take, H.
Qed.

Lemma matching_same_ids a ps ps' :
  map (fun p => m_id (meta p)) ps' = map (fun p => m_id (meta p)) ps ->
  matching a ps' = matching a ps.
Proof. intros H. rewrite !matching_ids. by rewrite H. Qed.

Lemma update_keeps_ids updater st c :
  exists st' c',
    updateActiveProjectData updater st c = Some (st', c')
    /\ project_ids st' = project_ids st
    /\ activeProjectId st' = activeProjectId st.
Proof.
  destruct (truthy (activeProjectId st)) eqn:Ht.
  - destruct (update_run updater st c Ht) as (ps' & -> & Hlen & Hget).
    do 2 eexists. split; [reflexivity|]. split; [|reflexivity].
    unfold project_ids. cbn [projects].
    apply (pointwise_ids _ _ _ Hlen Hget). intros i p. apply touched_id.
  - rewrite (update_noop _ _ _ Ht). by do 2 eexists.
Qed.

(** Two updates in a row are one update with the composed updater, made at
    the clock the first one left. *)
Lemma update_update f g st c :
  exists st1 c1,
    updateActiveProjectData f st c = Some (st1, c1)
    /\ updateActiveProjectData g st1 c1
       = updateActiveProjectData (fun d => g (f d)) st c1.
Proof.
  destruct (truthy (activeProjectId st)) eqn:Ht.
  - destruct (update_run f st c Ht) as (ps1 & -> & Hlen1 & Hget1).
    do 2 eexists. split; [reflexivity|].
    set (c1 := {| readings := readings c;
                  elapsed := elapsed c + matching (activeProjectId st) (projects st) |}).
    set (st1 := {| projects := ps1; activeProjectId := activeProjectId st |}).
    assert (Hids : map (fun p => m_id (meta p)) ps1
                   = map (fun p => m_id (meta p)) (projects st)).
    { apply (pointwise_ids _ _ _ Hlen1 Hget1). intros i p. apply touched_id. }
    destruct (update_run g st1 c1 Ht) as (ps2 & -> & Hlen2 & Hget2).
    destruct (update_run (fun d => g (f d)) st c1 Ht) as (ps3 & -> & Hlen3 & Hget3).
    subst st1 c1. cbn [projects activeProjectId] in *.
    rewrite (matching_same_ids _ _ _ Hids). do 3 f_equal.
    apply list_eq. intros i. destruct (projects st !! i) as [p|] eqn:Hi.
    + rewrite (Hget3 i p Hi), (Hget2 i _ (Hget1 i p Hi)), touched_touched.
      by rewrite (matching_take_same_ids _ _ _ _ Hids).
    + apply lookup_ge_None in Hi.
      rewrite (lookup_ge_None_2 ps2 i), (lookup_ge_None_2 ps3 i); [reflexivity|lia|lia].
  - rewrite (update_noop _ _ _ Ht). do 2 eexists. split; [reflexivity|].
    by rewrite !update_noop.
Qed.

(** Updaters that agree on every data value give the same update. *)
Lemma update_ext f g st c :
  (forall d, f d = g d) ->
  updateActiveProjectData f st c = updateActiveProjectData g st c.
Proof.
  intros Hfg. destruct (truthy (activeProjectId st)) eqn:Ht.
  - destruct (update_run f st c Ht) as (ps1 & -> & Hlen1 & Hget1).
    destruct (update_run g st c Ht) as (ps2 & -> & Hlen2 & Hget2).
    do 3 f_equal. apply list_eq. intros i.
    destruct (projects st !! i) as [p|] eqn:Hi.
    + rewrite (Hget1 i p Hi), (Hget2 i p Hi). f_equal. by apply touched_ext.
    + apply lookup_ge_None in Hi.
      rewrite (lookup_ge_None_2 ps1 i), (lookup_ge_None_2 ps2 i); [reflexivity|lia|lia].
  - by rewrite !update_noop.
Qed.

(** The clock an update leaves does not depend on the updater. *)
Lemma update_clock f g st c st1 c1 st2 c2 :
  updateActiveProjectData f st c = Some (st1, c1) ->
  updateActiveProjectData g st c = Some (st2, c2) -> c1 = c2.
Proof.
  destruct (truthy (activeProjectId st)) eqn:Ht.
  - destruct (update_run f st c Ht) as (ps1 & -> & _).
    destruct (update_run g st c Ht) as (ps2 & -> & _). congruence.
  - rewrite !(update_noop _ _ _ Ht). congruence.
Qed.

Lemma update_commute f g st c :
  (forall d, g (f d) = f (g d)) ->
  exists st1 c1 st2 c2,
    updateActiveProjectData f st c = Some (st1, c1)
    /\ updateActiveProjectData g st c = Some (st2, c2)
    /\ updateActiveProjectData g st1 c1 = updateActiveProjectData f st2 c2.
Proof.
  intros Hfg.
  destruct (update_update f g st c) as (st1 & c1 & E1 & Hgf).
  destruct (update_update g f st c) as (st2 & c2 & E2 & Hfg').
  exists st1, c1, st2, c2. split; [exact E1|]. split; [exact E2|].
  rewrite Hgf, Hfg', (update_clock _ _ _ _ _ _ _ _ E1 E2).
  by apply update_ext.
Qed.

(** What the builder shows after an update, when it was showing a project
    before. *)
Lemma update_shows updater st c L t v m :
  render st = DocumentBuilder L t v m ->
  exists st' c',
    updateActiveProjectData updater st c = Some (st', c')
    /\ render st'
       = DocumentBuilder
           (library (updater {| project := t; library := L; versions := v |}))
           (project (updater {| project := t; library := L; versions := v |}))
           (versions (updater {| project := t; library := L; versions := v |}))
           (with_lastModified (readings c (elapsed c)) m).
Proof.
  intros (a & i & p & Ea & Hne & Hi & Hp & Hbefore & -> & -> & -> & ->)%render_builder_inv.
  assert (Ht : truthy (activeProjectId st) = true).
  { rewrite Ea. cbn. by apply String.eqb_neq in Hne as ->. }
  destruct (update_run updater st c Ht) as (ps' & -> & Hlen & Hget).
  do 2 eexists. split; [reflexivity|].
  assert (Hzero : matching (activeProjectId st) (take i (projects st)) = 0).
  { apply matching_none. apply Forall_lookup. intros j q [Hq Hj]%lookup_take_Some.
    rewrite Ea. intros [= E]. by apply (Hbefore j q Hj Hq). }
  set (p' := {| meta := with_lastModified (readings c (elapsed c)) (meta p);
                data := updater (data p) |}).
  assert (Hp' : ps' !! i = Some p').
  { rewrite (Hget i p Hi), Hzero, Nat.add_0_r. unfold touched.
    by rewrite decide_True by congruence. }
  rewrite (render_builder _ p').
  - cbn [data meta p']. by destruct (data p).
  - exact Ht.
  - unfold activeProject. cbn [activeProjectId projects]. rewrite Ea. cbn.
    apply (find_first _ _ i p' Hp'); [by apply bool_decide_eq_true_2|].
    intros j y Hj Hy. apply bool_decide_eq_false_2.
    assert (Hjlen : j < length (projects st)).
    { apply lookup_lt_Some in Hi. lia. }
    apply lookup_lt_is_Some_2 in Hjlen as [q Hq].
    rewrite (Hget j q Hq) in Hy. injection Hy as <-.
    rewrite touched_id. by apply (Hbefore j q).
Qed.

(** X11.  An edit never changes which ids the list holds, nor their order,
    nor the active id: whatever the updater does, the list of project ids
    after the edit is the list before it. *)
Theorem edit_keeps_the_ids (e : Edit) (st : AppState) (c : Clock) :
  exists st' c',
    applyEdit e st c = Some (st', c')
    /\ project_ids st' = project_ids st
    /\ activeProjectId st' = activeProjectId st.
Proof. rewrite applyEdit_updater. apply update_keeps_ids. Qed.

(** X12.  An edit reaches every project that carries the active id, not only
    the one the builder shows: each of them gets the data the wrapper
    computes from its own data, and the clock is read once for each. *)
Theorem edit_reaches_every_project_with_the_active_id (e : Edit) (st : AppState)
    (c : Clock) (a : string) :
  activeProjectId st = Some a -> a <> ""%string ->
  exists st' c',
    applyEdit e st c = Some (st', c')
    /\ elapsed c' = elapsed c + matching (Some a) (projects st)
    /\ forall i p, projects st !! i = Some p -> m_id (meta p) = a ->
         exists p', projects st' !! i = Some p'
                    /\ data p' = edit_updater e (data p).
Proof.
  intros Ea Hne. rewrite applyEdit_updater.
  assert (Ht : truthy (activeProjectId st) = true).
  { rewrite Ea. cbn. by apply String.eqb_neq in Hne as ->. }
  destruct (update_run (edit_updater e) st c Ht) as (ps' & -> & Hlen & Hget).
  do 2 eexists. split; [reflexivity|]. cbn [elapsed projects].
  split; [by rewrite Ea|].
  intros i p Hi Hp. eexists. split; [exact (Hget i p Hi)|].
  unfold touched. rewrite decide_True by congruence. reflexivity.
Qed.

Lemma edit_reaches_every_project_with_the_active_id_witness :
  exists st' c',
    applyEdit (EditProject (Value [sampleNode]))
      {| projects := [danglingFile; sampleFile; danglingFile];
         activeProjectId := Some "PROJ_1" |} (ticking 5) = Some (st', c')
    /\ elapsed c' = 2
    /\ (exists p', projects st' !! 2 = Some p' /\ project (data p') = [sampleNode]).
Proof.
  destruct (edit_reaches_every_project_with_the_active_id
              (EditProject (Value [sampleNode]))
              {| projects := [danglingFile; sampleFile; danglingFile];
                 activeProjectId := Some "PROJ_1" |} (ticking 5) "PROJ_1")
    as (st' & c' & E & Hc & Hall); [reflexivity|discriminate|].
  exists st', c'. split; [exact E|]. split; [exact Hc|].
  destruct (Hall 2 danglingFile) as (p' & Hp' & Hd); [reflexivity|reflexivity|].
  exists p'. split; [exact Hp'|]. rewrite Hd. reflexivity.
Defined.

(** X13.  While the builder shows a project, an edit through a wrapper is
    what the builder shows next: the field of that wrapper holds the new
    value (the given value, or the given function applied to the value
    shown), the two other fields are the ones shown before, and the meta is
    the one shown before with [lastModified] set to the first reading of the
    clock. *)
Theorem edit_shows_in_the_builder (st : AppState) (c : Clock) (L : LibraryData)
    (t : list ProjectNode) (v : list ProjectVersion) (m : ProjectMeta) :
  render st = DocumentBuilder L t v m ->
  (forall a, exists st' c',
      setProjectWrapper a st c = Some (st', c')
      /\ render st' = DocumentBuilder L (resolve a t) v
                        (with_lastModified (readings c (elapsed c)) m))
  /\ (forall a, exists st' c',
        setLibraryWrapper a st c = Some (st', c')
        /\ render st' = DocumentBuilder (resolve a L) t v
                          (with_lastModified (readings c (elapsed c)) m))
  /\ (forall a, exists st' c',
        setVersionsWrapper a st c = Some (st', c')
        /\ render st' = DocumentBuilder L t (resolve a v)
                          (with_lastModified (readings c (elapsed c)) m)).
Proof.
  intros Hr. split; [|split]; intros a.
  - exact (update_shows _ st c L t v m Hr).
  - exact (update_shows _ st c L t v m Hr).
  - exact (update_shows _ st c L t v m Hr).
Qed.

Lemma edit_shows_in_the_builder_witness :
  exists st' c',
    setProjectWrapper (Updater (fun t => sampleNode :: t)) sampleState (ticking 5)
    = Some (st', c')
    /\ render st' = DocumentBuilder danglingLibrary [sampleNode] []
                      (with_lastModified 5 (sampleMeta "PROJ_1")).
Proof.
  apply (proj1 (edit_shows_in_the_builder sampleState (ticking 5) danglingLibrary [] []
                  (sampleMeta "PROJ_1") eq_refl)
           (Updater (fun t => sampleNode :: t))).
Defined.

(** X14.  Two edits in a row are one edit: the second wrapper's updater
    applied after the first's, stamped by the clock as the first edit left
    it.  In particular an edit that sets a field to a value makes an earlier
    edit of the same field unobservable. *)
Theorem edits_compose (e1 e2 : Edit) (st : AppState) (c : Clock) :
  (exists st1 c1,
     applyEdit e1 st c = Some (st1, c1)
     /\ applyEdit e2 st1 c1
        = updateActiveProjectData (fun d => edit_updater e2 (edit_updater e1 d)) st c1)
  /\ (forall a t, exists st1 c1,
        setProjectWrapper a st c = Some (st1, c1)
        /\ setProjectWrapper (Value t) st1 c1 = setProjectWrapper (Value t) st c1).
Proof.
  split.
  - rewrite !applyEdit_updater.
    destruct (update_update (edit_updater e1) (edit_updater e2) st c)
      as (st1 & c1 & E & H).
    exists st1, c1. split; [exact E|]. exact H.
  - intros a t.
    assert (Hw : forall x, setProjectWrapper x
                           = updateActiveProjectData (edit_updater (EditProject x)))
      by reflexivity.
    rewrite !Hw.
    destruct (update_update (edit_updater (EditProject a))
                (edit_updater (EditProject (Value t))) st c) as (st1 & c1 & E & H).
    exists st1, c1. split; [exact E|]. rewrite H. by apply update_ext.
Qed.

(** X15.  Edits of different fields commute: tree and library, tree and
    versions, library and versions can be edited in either order, from the
    same state and clock, with the same final state and clock. *)
Theorem edits_of_different_fields_commute
    (a : SetStateAction (list ProjectNode)) (b : SetStateAction LibraryData)
    (v : SetStateAction (list ProjectVersion)) (st : AppState) (c : Clock) :
  commute_at (EditProject a) (EditLibrary b) st c
  /\ commute_at (EditProject a) (EditVersions v) st c
  /\ commute_at (EditLibrary b) (EditVersions v) st c.
Proof.
  unfold commute_at. rewrite !applyEdit_updater.
  split; [|split]; apply update_commute; intros d; reflexivity.
Qed.

End HandlerFacts.

(* ===================================================================== *)
(** * 11. Mounting, sessions and the stored document *)
(* ===================================================================== *)

Section SessionFacts.

(** ** Mounting *)

(** X16.  Whatever the two built-ins are: mounting installs the list of the
    load effect; when that list is empty (nothing stored, a text that does
    not parse, a value that is not an array, or an empty array) the storage
    is left exactly as it was, so a document that cannot be loaded is never
    overwritten; no other key is ever touched, and a stored document is
    never removed. *)
Theorem mount_keeps_what_it_cannot_load (JSON_stringify : json -> string)
    (JSON_parse : string -> option json) (ls : gmap string string) :
  (mountWith JSON_stringify JSON_parse ls).1 = loadEffectWith JSON_parse ls
  /\ (loadEffectWith JSON_parse ls = [] ->
        (mountWith JSON_stringify JSON_parse ls).2 = ls)
  /\ (forall k, k <> PROJECTS_STORAGE_KEY ->
        (mountWith JSON_stringify JSON_parse ls).2 !! k = ls !! k)
  /\ (is_Some (ls !! PROJECTS_STORAGE_KEY) ->
        is_Some ((mountWith JSON_stringify JSON_parse ls).2 !! PROJECTS_STORAGE_KEY)).
Proof.
  unfold mountWith. cbn [fst snd]. rewrite persistEffectWith_nil.
  split; [reflexivity|]. split; [by intros ->|].
  destruct (activeProject_any None (loadEffectWith JSON_parse ls)); [|done].
  destruct (loadEffectWith JSON_parse ls) as [|p ps].
  - by rewrite persistEffectWith_nil.
  - rewrite persistEffectWith_cons. split.
    + intros k Hk. by apply lookup_insert_ne.
    + intros _. rewrite lookup_insert_eq. by eexists.
Qed.

Lemma mount_keeps_what_it_cannot_load_witness :
  mount (<[PROJECTS_STORAGE_KEY := "{oops"]> ∅)
  = ([], <[PROJECTS_STORAGE_KEY := "{oops"]> ∅).
Proof.
  destruct (mount_keeps_what_it_cannot_load JSON.stringify JSON.parse
              (<[PROJECTS_STORAGE_KEY := "{oops"]> ∅)) as (H1 & H2 & _).
  apply injective_projections; [exact H1|]. apply H2. reflexivity.
Defined.

Lemma stringify_truthy v : truthy (Some (JSON.stringify (JArr v))) = true.
Proof. reflexivity. Qed.

(** The render of a list of project files never throws in line 168, and
    with no project active it finds none. *)
Lemma activeProject_any_runtime (ps : list ProjectFile) :
  activeProject_any None (runtime ps) = Some None.
Proof. induction ps as [|p ps IH]; [reflexivity|]. cbn. exact IH. Qed.

(** Mounting on what the save effect wrote, for any built-ins that read the
    text back and any non-empty list the render accepts. *)
Lemma mountWith_stored (JSON_stringify : json -> string)
    (JSON_parse : string -> option json) (ps : list json) (ls : gmap string string) :
  JSON_parse (JSON_stringify (JArr ps)) = Some (JArr ps) ->
  truthy (Some (JSON_stringify (JArr ps))) = true ->
  ls !! PROJECTS_STORAGE_KEY = Some (JSON_stringify (JArr ps)) ->
  mountWith JSON_stringify JSON_parse ls = (ps, ls).
Proof.
  intros Hparse Htruthy Hls. unfold mountWith. rewrite persistEffectWith_nil.
  assert (Hload : loadEffectWith JSON_parse ls = ps).
  { unfold loadEffectWith, localStorage.getItem. by rewrite Hls, Htruthy, Hparse. }
  rewrite Hload. f_equal. destruct (activeProject_any None ps); [|reflexivity].
  destruct ps as [|p ps]; [by rewrite persistEffectWith_nil|].
  rewrite persistEffectWith_cons. by apply insert_id.
Qed.

(** Loading what the save effect wrote for a list of well-formed values. *)
Lemma load_stored (ps : list json) (ls : gmap string string) :
  wf (JArr ps) = true ->
  ls !! PROJECTS_STORAGE_KEY = Some (JSON.stringify (JArr ps)) ->
  mount ls = (ps, ls).
Proof.
  intros Hwf Hls. apply mountWith_stored; [|apply stringify_truthy|exact Hls].
  exact (parse_stringify _ Hwf).
Qed.



(** A stored array whose elements are not project files: the render after
    the load effect throws, and the stored text stays as it was. *)
Example mount_on_a_list_of_numbers :
  mount (<[PROJECTS_STORAGE_KEY := " [ 1 , 2 ] "]> ∅)
  = ([JNum 1; JNum 2], <[PROJECTS_STORAGE_KEY := " [ 1 , 2 ] "]> ∅).
Proof. vm_compute. reflexivity. Qed.

(** ** Sessions *)

Lemma stored_ok_persist st ls : stored_ok st (persistEffect (runtime (projects st)) ls).
Proof.
  unfold stored_ok, persistEffect. destruct (projects st) as [|p ps]; [done|].
  intros _. cbn [runtime map]. rewrite persistEffectWith_cons. apply lookup_insert_eq.
Qed.

Lemma stored_ok_same_projects st st' ls :
  projects st' = projects st -> stored_ok st ls -> stored_ok st' ls.
Proof. unfold stored_ok. by intros ->. Qed.

(** No handler ever throws; one that does not call [setProjects] leaves the
    project list as it is. *)
Lemma handle_run ev st c :
  exists st' set c',
    handle ev st c = Some ((st', set), c')
    /\ (set = false -> projects st' = projects st).
Proof.
  destruct ev as [name description|fileData|id|id| |e]; cbn [handle].
  - rewrite Eff_bind_run, handleCreateProject_run, Eff_ret_run.
    do 3 eexists. split; [reflexivity|discriminate].
  - rewrite Eff_ret_run. do 3 eexists. split; [reflexivity|].
    unfold handleImportProject.
    destruct (decide (Exists (fun p => m_id (meta p) = m_id (meta fileData)) (projects st)))
      as [Hex|Hex].
    + by rewrite (bool_decide_eq_true_2 _ Hex).
    + rewrite (bool_decide_eq_false_2 _ Hex). cbn [fst snd].
      by intros Hset%bool_decide_eq_false.
  - rewrite Eff_ret_run. do 3 eexists. split; [reflexivity|discriminate].
  - rewrite Eff_ret_run. do 3 eexists. split; [reflexivity|done].
  - rewrite Eff_ret_run. do 3 eexists. split; [reflexivity|done].
  - rewrite Eff_bind_run, applyEdit_updater.
    destruct (truthy (activeProjectId st)) eqn:Ht.
    + destruct (update_run (edit_updater e) st c Ht) as (ps' & -> & _).
      rewrite Eff_ret_run. do 3 eexists. split; [reflexivity|discriminate].
    + rewrite (update_noop _ _ _ Ht), Eff_ret_run.
      do 3 eexists. split; [reflexivity|done].
Qed.

Lemma session_cons ev evs st ls c :
  session (ev :: evs) st ls c
  = match handle ev st c with
    | Some ((st', set), c') =>
        session evs st'
          (if set : bool then persistEffect (runtime (projects st')) ls else ls) c'
    | None => None
    end.
Proof.
  cbn [session]. rewrite Eff_bind_run. by destruct (handle ev st c) as [[[st' set] c']|].
Qed.

Lemma session_stored_ok evs st ls c :
  stored_ok st ls ->
  exists st' ls' c', session evs st ls c = Some ((st', ls'), c') /\ stored_ok st' ls'.
Proof.
  revert st ls c. induction evs as [|ev evs IH]; intros st ls c Hok.
  - by exists st, ls, c.
  - rewrite session_cons.
    destruct (handle_run ev st c) as (st1 & set & c1 & -> & Hset).
    apply IH. destruct set.
    + apply stored_ok_persist.
    + apply (stored_ok_same_projects st); [by apply Hset|exact Hok].
Qed.

(** X18.  No session ever throws, and after every session that started with
    the storage in step with the project list (as it is with the empty list
    of a fresh mount) the storage is in step again: unless the list is
    empty, the stored document is the serialisation of the current list.  A
    reload then installs exactly the current list, when its files are
    well-formed, and rewrites the storage to what it was. *)
Theorem session_keeps_the_storage_in_step (evs : list Event) (st : AppState)
    (ls : gmap string string) (c : Clock) :
  stored_ok st ls ->
  exists st' ls' c',
    session evs st ls c = Some ((st', ls'), c')
    /\ stored_ok st' ls'
    /\ (projects st' <> [] -> Forall (fun p => ProjectFile_wf p = true) (projects st') ->
          mount ls' = (runtime (projects st'), ls')).
Proof.
  intros Hok. destruct (session_stored_ok evs st ls c Hok) as (st' & ls' & c' & E & Hok').
  exists st', ls', c'. split; [exact E|]. split; [exact Hok'|].
  intros Hne Hwf. apply load_stored.
  - by apply wf_runtime.
  - by apply Hok'.
Qed.

Lemma session_keeps_the_storage_in_step_witness :
  exists st' ls' c',
    session [EvImport sampleFile; EvOpen "PROJ_1700000000000";
             EvEdit (EditVersions (Value [])); EvBack; EvCreate "Study B" ""]
      initialState ∅ (ticking 5) = Some ((st', ls'), c')
    /\ stored_ok st' ls'.
Proof.
  destruct (session_keeps_the_storage_in_step
              [EvImport sampleFile; EvOpen "PROJ_1700000000000";
               EvEdit (EditVersions (Value [])); EvBack; EvCreate "Study B" ""]
              initialState ∅ (ticking 5)) as (st' & ls' & c' & E & Hok & _).
  - intros H. exfalso. apply H. reflexivity.
  - exists st', ls', c'. split; [exact E|exact Hok].
Defined.

(** X19.  A deleted last project comes back: import a well-formed file into
    the empty registry, delete it, and the project list is empty, but the
    stored document still holds the file, and the next mount installs it
    again. *)
Theorem deleted_last_project_comes_back (fileData : ProjectFile)
    (ls : gmap string string) (c : Clock) :
  ProjectFile_wf fileData = true ->
  exists st' ls',
    session [EvImport fileData; EvDelete (m_id (meta fileData))] initialState ls c
    = Some ((st', ls'), c)
    /\ projects st' = []
    /\ mount ls' = ([ProjectFile_toJSON fileData], ls').
Proof.
  intros Hwf.
  assert (Himp : handleImportProject (projects initialState) fileData initialState
                 = ({| projects := [fileData];
                       activeProjectId := Some (m_id (meta fileData)) |}, None))
    by reflexivity.
  assert (Hdel : handleDeleteProject (m_id (meta fileData))
                   {| projects := [fileData];
                      activeProjectId := Some (m_id (meta fileData)) |}
                 = {| projects := []; activeProjectId := None |}).
  { unfold handleDeleteProject. cbn [projects activeProjectId].
    rewrite filter_cons_False by (intros H; by apply H).
    by rewrite filter_nil, bool_decide_eq_true_2. }
  rewrite session_cons. cbn [handle]. rewrite Eff_ret_run, Himp. cbn [fst snd].
  rewrite bool_decide_eq_true_2 by reflexivity.
  rewrite session_cons. cbn [handle]. rewrite Eff_ret_run, Hdel.
  cbn [session projects]. rewrite Eff_ret_run.
  do 2 eexists. split; [reflexivity|]. split; [reflexivity|].
  cbn [runtime map]. unfold persistEffect.
  rewrite persistEffectWith_cons, persistEffectWith_nil.
  apply load_stored; [|apply lookup_insert_eq].
  apply (wf_runtime [fileData]). by constructor.
Qed.

Lemma deleted_last_project_comes_back_witness :
  exists st' ls',
    session [EvImport sampleFile; EvDelete "PROJ_1700000000000"] initialState ∅ (frozen 5)
    = Some ((st', ls'), frozen 5)
    /\ projects st' = []
    /\ mount ls' = ([ProjectFile_toJSON sampleFile], ls').
Proof. exact (deleted_last_project_comes_back sampleFile ∅ (frozen 5) eq_refl). Defined.

(** ** Distinct ids *)

Lemma handle_keeps_ids_distinct ev st c :
  is_create ev = false -> NoDup (project_ids st) ->
  exists st' set c', handle ev st c = Some ((st', set), c') /\ NoDup (project_ids st').
Proof.
  intros Hev Hnd. destruct ev as [name description|fileData|id|id| |e];
    try discriminate Hev; cbn [handle].
  - rewrite Eff_ret_run. do 3 eexists. split; [reflexivity|].
    by apply import_preserves_unique.
  - rewrite Eff_ret_run. do 3 eexists. split; [reflexivity|].
    by apply delete_preserves_unique.
  - rewrite Eff_ret_run. do 3 eexists. split; [reflexivity|exact Hnd].
  - rewrite Eff_ret_run. do 3 eexists. split; [reflexivity|exact Hnd].
  - rewrite Eff_bind_run, applyEdit_updater.
    destruct (update_keeps_ids (edit_updater e) st c) as (st' & c' & -> & Hids & _).
    rewrite Eff_ret_run. do 3 eexists. split; [reflexivity|]. by rewrite Hids.
Qed.

(** X20.  When the component is rendered again between two events, only
    creation can repeat an id: a session without a create event (imports,
    deletions, opening, going back, edits, each handled by the render that
    shows the state the event before it left) that starts from a list of
    distinct ids ends in a list of distinct ids.  Two imports from one and
    the same render are not a session in this sense; they can repeat an id
    (see [import_tests_rendered]). *)
Theorem session_without_create_keeps_ids_distinct (evs : list Event) (st : AppState)
    (ls : gmap string string) (c : Clock) :
  Forall (fun ev => is_create ev = false) evs -> NoDup (project_ids st) ->
  exists st' ls' c',
    session evs st ls c = Some ((st', ls'), c') /\ NoDup (project_ids st').
Proof.
  intros Hevs. revert st ls c. induction Hevs as [|ev evs Hev _ IH]; intros st ls c Hnd.
  - by exists st, ls, c.
  - rewrite session_cons.
    destruct (handle_keeps_ids_distinct ev st c Hev Hnd) as (st1 & set & c1 & -> & Hnd1).
    by apply IH.
Qed.

Lemma session_without_create_keeps_ids_distinct_witness :
  exists st' ls' c',
    session [EvImport sampleFile; EvImport sampleFile; EvImport danglingFile;
             EvEdit (EditProject (Value [])); EvDelete "PROJ_1"]
      initialState ∅ (ticking 5) = Some ((st', ls'), c')
    /\ NoDup (project_ids st').
Proof.
  apply (session_without_create_keeps_ids_distinct
           [EvImport sampleFile; EvImport sampleFile; EvImport danglingFile;
            EvEdit (EditProject (Value [])); EvDelete "PROJ_1"]
           initialState ∅ (ticking 5)).
  - repeat (apply Forall_cons; split; [reflexivity|]). apply Forall_nil. exact I.
  - apply NoDup_nil. exact I.
Defined.

(** ** The deep copy *)

(** X21.  The copy idiom of [handleCreateProject],
    [JSON.parse(JSON.stringify(L))], never throws and returns a library equal
    to [L], for every library [L]: its variables and forms in order, an
    absent [options], [format], [headerVariableIds] or [defaultRows] still
    absent and an empty list still an empty list; so two libraries with
    equal copies are equal. *)
Theorem deep_copy_is_equal (L : LibraryData) :
  deepClone L = Some L
  /\ forall L', deepClone L' = deepClone L -> L' = L.
Proof.
  split; [apply deepClone_id|].
  intros L'. rewrite !deepClone_id. by intros [= ->].
Qed.

(** ** What the dashboard operations never do *)

Lemma run_cons a acts st c :
  run (a :: acts) st c
  = match step a st c with
    | Some (st', c') => run acts st' c'
    | None => None
    end.
Proof. cbn [run]. by rewrite Eff_bind_run. Qed.

Lemma origin_cons a acts p : origin acts p -> origin (a :: acts) p.
Proof.
  intros [H|(name & description & H & Hrest)]; [left|right].
  - by apply list_elem_of_further.
  - exists name, description. split; [by apply list_elem_of_further|exact Hrest].
Qed.

Lemma step_origin a st c st' c' p :
  step a st c = Some (st', c') -> p ∈ projects st' ->
  p ∈ projects st \/ origin [a] p.
Proof.
  destruct a as [name description|fileData|id]; cbn [step].
  - rewrite handleCreateProject_run. intros [= <- <-]. cbn [projects].
    intros [->|Hp]%elem_of_cons; [right|by left].
    right. exists name, description. split; [apply list_elem_of_here|done].
  - rewrite Eff_ret_run. intros [= <- <-]. unfold handleImportProject.
    case_bool_decide; cbn [fst projects]; [by left|].
    intros [->|Hp]%elem_of_cons; [right|by left]. left. apply list_elem_of_here.
  - rewrite Eff_ret_run. intros [= <- <-]. cbn [handleDeleteProject projects].
    intros [_ Hp]%list_elem_of_filter. by left.
Qed.

Lemma run_origin acts st c st' c' p :
  run acts st c = Some (st', c') -> p ∈ projects st' ->
  p ∈ projects st \/ origin acts p.
Proof.
  revert st c. induction acts as [|a acts IH]; intros st c.
  - cbn [run]. rewrite Eff_ret_run. intros [= <- <-]. by left.
  - rewrite run_cons. destruct (step a st c) as [[st1 c1]|] eqn:Hstep; [|discriminate].
    intros Hrun Hp. destruct (IH st1 c1 Hrun Hp) as [Hp1|Ho].
    + destruct (step_origin a st c st1 c1 p Hstep Hp1) as [Hp0|Ho]; [by left|right].
      destruct Ho as [H|(name & description & H & Hrest)]; [left|right].
      * apply list_elem_of_singleton in H as <-. apply list_elem_of_here.
      * apply list_elem_of_singleton in H as <-.
        exists name, description. split; [apply list_elem_of_here|exact Hrest].
    + right. by apply origin_cons.
Qed.

(** X22.  Create, import and delete never alter a project: every project of
    a list reached from the empty list is a file that one of the operations
    imported, exactly as it was imported, or the blank project that one of
    the operations created (its name and description, the default library,
    an empty tree and no versions). *)
Theorem dashboard_operations_never_alter_a_project (acts : list Action) (c c' : Clock)
    (st' : AppState) (p : ProjectFile) :
  run acts initialState c = Some (st', c') -> p ∈ projects st' -> origin acts p.
Proof.
  intros Hrun Hp. destruct (run_origin acts initialState c st' c' p Hrun Hp) as [H|H].
  - by apply elem_of_nil in H.
  - exact H.
Qed.

Lemma dashboard_operations_never_alter_a_project_witness :
  origin [ActImport danglingFile; ActCreate "Study B" ""; ActImport sampleFile;
          ActDelete "PROJ_1"] sampleFile.
Proof.
  eapply (dashboard_operations_never_alter_a_project
            [ActImport danglingFile; ActCreate "Study B" ""; ActImport sampleFile;
             ActDelete "PROJ_1"] (ticking 5)).
  - cbn [run step]. rewrite Eff_bind_run, Eff_ret_run.
    rewrite Eff_bind_run, handleCreateProject_run.
    rewrite Eff_bind_run, Eff_ret_run, Eff_bind_run, Eff_ret_run. reflexivity.
  - apply list_elem_of_here.
Defined.

(** X23.  Importing the same file twice.  If the second call comes from the
    render that followed the first, the file is never added twice: whatever
    the first import did, the second is refused with the duplicate-id alert
    and returns the state the first one left.  If both calls come from one
    render, whose list lacks the id, both are admitted without an alert and
    the list holds the file twice. *)
Theorem import_twice (fileData : ProjectFile) (st : AppState) :
  (let first := handleImportProject (projects st) fileData st in
   handleImportProject (projects first.1) fileData first.1
   = (first.1, Some duplicate_id_alert))
  /\ (m_id (meta fileData) ∉ project_ids st ->
      let first := handleImportProject (projects st) fileData st in
      first.2 = None
      /\ handleImportProject (projects st) fileData first.1
         = ({| projects := fileData :: fileData :: projects st;
               activeProjectId := Some (m_id (meta fileData)) |}, None)).
Proof.
  split; cbn zeta.
  - destruct (import_on_current_render fileData st) as [Hin Hout].
    destruct (decide (Exists (fun p => m_id (meta p) = m_id (meta fileData))
                        (projects st))) as [Hex|Hex].
    + rewrite (Hin Hex). cbn [fst]. exact (Hin Hex).
    + rewrite (Hout Hex). cbn [fst].
      apply (proj1 (import_on_current_render fileData _)). by apply Exists_cons_hd.
  - intros Hid. rewrite (proj2 (import_tests_rendered (projects st) fileData st) Hid).
    cbn [fst snd]. split; [reflexivity|].
    by rewrite (proj2 (import_tests_rendered (projects st) fileData _) Hid).
Qed.

Lemma import_twice_witness :
  let first := handleImportProject (projects initialState) sampleFile initialState in
  first.2 = None
  /\ handleImportProject (projects initialState) sampleFile first.1
     = ({| projects := [sampleFile; sampleFile];
           activeProjectId := Some "PROJ_1700000000000" |}, None).
Proof.
  apply (proj2 (import_twice sampleFile initialState)).
  intros H. by apply elem_of_nil in H.
Defined.

End SessionFacts.
